(** * Monolith plugin for Obsidian: a shallow embedding of [main.ts]

    The plugin archives the URL under the selection with the [monolith]
    binary and puts a link to the saved page next to it.  Two revisions of
    the plugin are embedded: the one at the head of [src/main.ts] (anchor
    tag, editor decorations) in [Module MainTs] and
    [Module MonolithViewPlugin], and the one of [src/unnamed/part_000]
    (markdown link, early return in the command check) in [Module Part000].
    What both share (JavaScript primitives, settings, the settings tab, the
    process events) comes first.  The earlier draft that follows in
    [src/main.ts] (a decoration loop that adds nothing, a close handler that
    hands the text to [setSelection]) is not embedded.

    Effects are explicit: every method of the plugin is a function in a
    state monad over [World], which holds the settings, the stored data,
    the editors, the notices, the console, the processes spawned and the
    settings pane.  What the plugin calls and does not define (the editor,
    [new URL], [homedir], the DOM) is the class [Host]. *)

From Stdlib Require Import String Ascii List Bool Arith ZArith Lia Sorted.
Import ListNotations.
Open Scope list_scope.
Open Scope string_scope.

Set Implicit Arguments.

(** ** JavaScript values and primitives used by the plugin *)

(** The values that flow through [path.pop() || path.pop()]: a string, or
    [undefined] when the array is empty. *)
Inductive jsval : Type :=
| JUndefined
| JString (s : string).

(** [ToBoolean]: [undefined] and the empty string are falsy. *)
Definition truthy (v : jsval) : bool :=
  match v with
  | JUndefined => false
  | JString s => negb (s =? "")
  end.

(** [ToString], as a template literal applies it. *)
Definition toStr (v : jsval) : string :=
  match v with
  | JUndefined => "undefined"
  | JString s => s
  end.

(** [a || d] with a string on the right: the result is a string. *)
Definition orString (a : jsval) (d : string) : string :=
  match a with
  | JString s => if truthy a then s else d
  | JUndefined => d
  end.

(** [String.prototype.split(sep)] for a one-character separator. *)
Fixpoint split (sep : ascii) (s : string) : list string :=
  match s with
  | EmptyString => [""]
  | String c s' =>
      if Ascii.eqb c sep then "" :: split sep s'
      else match split sep s' with
           | [] => [String c ""]
           | w :: ws => String c w :: ws
           end
  end.

(** [Array.prototype.join(sep)]. *)
Fixpoint join (sep : string) (l : list string) : string :=
  match l with
  | [] => ""
  | [x] => x
  | x :: rest => x ++ sep ++ join sep rest
  end.

(** [Array.prototype.pop()]: the last element (or [undefined]) and the
    array as it is left. *)
Definition pop (a : list string) : jsval * list string :=
  match rev a with
  | [] => (JUndefined, [])
  | x :: r => (JString x, rev r)
  end.

(** [a.pop() || a.pop()]: the second [pop] runs only when the first value is
    falsy, and sees the array the first one left. *)
Definition popOrPop (a : list string) : jsval * list string :=
  let '(v1, a1) := pop a in
  if truthy v1 then (v1, a1) else pop a1.

(** [Array.prototype.slice(i)]. *)
Definition sliceFrom (A : Type) (i : nat) (l : list A) : list A := skipn i l.

(** [Array.prototype.findIndex]; [None] stands for [-1]. *)
Fixpoint findIndex (A : Type) (p : A -> bool) (l : list A) : option nat :=
  match l with
  | [] => None
  | x :: rest => if p x then Some 0 else option_map S (findIndex p rest)
  end.

(** [s.startsWith(p)]. *)
Fixpoint startsWith (p s : string) : bool :=
  match p, s with
  | EmptyString, _ => true
  | String a p', String b s' => Ascii.eqb a b && startsWith p' s'
  | String _ _, EmptyString => false
  end.

(** [hay.contains(needle)] (Obsidian's alias of [includes]). *)
Fixpoint contains (needle hay : string) : bool :=
  startsWith needle hay ||
  match hay with
  | EmptyString => false
  | String _ hay' => contains needle hay'
  end.

(** [s.slice(-2)]: the last two characters (all of [s] when shorter). *)
Definition sliceLast2 (s : string) : string :=
  substring (String.length s - 2) 2 s.

(** ** URLs *)

(** What the plugin reads of a WHATWG [URL] object: [toString()] (the
    serialised [href]) and [pathname]. *)
Record URL : Type := { href : string; pathname : string }.

Definition URL_toString (u : URL) : string := href u.

(** [archiveLink], lines
    [const path = url.pathname.split('/')] and
    [const outputFile = `${path.pop() || path.pop()}.html`]. *)
Definition outputFile (url : URL) : string :=
  let path := split "/" (pathname url) in
  toStr (fst (popOrPop path)) ++ ".html".

(** The words of the specification for the name: the last segment of the
    path, or the one before it when the last is empty.  [None] when the
    segment asked for does not exist. *)
Definition segmentByWords (segments : list string) : option string :=
  match rev segments with
  | [] => None
  | l :: before =>
      if l =? "" then
        match before with
        | [] => None
        | s :: _ => Some s
        end
      else Some l
  end.

Definition endsWith (suffix s : string) : Prop := exists body, s = body ++ suffix.

(** The output file is named as the specification words it: some segment
    is the one the words pick, and the name is that segment and [.html]. *)
Definition named_by_words (url : URL) : Prop :=
  exists seg,
    segmentByWords (split "/" (pathname url)) = Some seg /\
    outputFile url = seg ++ ".html".

(** ** The host: Obsidian, Node and the DOM

    Everything the plugin calls and does not define.  [Editor] is the state
    of a markdown view's editor; the four editor methods are the ones the
    command uses.  [newURL] is [new URL(s)], [None] when it throws.
    [firstElementChildHref html] is the [href] of the first element child of
    a template whose [innerHTML] is [html]: [None] when there is no element
    child (reading [href] then throws), [Some JUndefined] when the element
    has no [href].  [replaceStartSide] and [replaceEndSide] are the
    [startSide] and the [endSide] that [Decoration.replace] gives a
    decoration. *)
Inductive CursorSide : Type := CFrom | CTo | CHead | CAnchor.

Class Host : Type := {
  Editor : Type;
  EditorPosition : Type;
  getSelection : Editor -> string;
  getCursor : CursorSide -> Editor -> EditorPosition;
  setSelection : EditorPosition -> EditorPosition -> Editor -> Editor;
  replaceSelection : string -> Editor -> Editor;
  newURL : string -> option URL;
  homedir : string;
  firstElementChildHref : string -> option jsval;
  replaceStartSide : Z;
  replaceEndSide : Z
}.

(** ** Settings *)

Record MonolithPluginSettings : Type := {
  cliOpts : list string;
  outputPath : string
}.

Definition DEFAULT_SETTINGS {H : Host} : MonolithPluginSettings :=
  {| cliOpts := ["--no-js"; "--isolate"]; outputPath := homedir |}.

(** A JavaScript object of the settings' shape, any field of which may be
    missing: [{}], what [loadData] resolves to, the target of
    [Object.assign]. *)
Record SettingsObject : Type := {
  o_cliOpts : option (list string);
  o_outputPath : option string
}.

Definition emptyObject : SettingsObject :=
  {| o_cliOpts := None; o_outputPath := None |}.

Definition toObject (s : MonolithPluginSettings) : SettingsObject :=
  {| o_cliOpts := Some (cliOpts s); o_outputPath := Some (outputPath s) |}.

(** One source of [Object.assign]: each own property of the source
    overwrites the target's; [null] (here [None]) is skipped. *)
Definition assignOne (target : SettingsObject) (source : option SettingsObject)
  : SettingsObject :=
  match source with
  | None => target
  | Some src =>
      {| o_cliOpts := match o_cliOpts src with
                      | Some v => Some v
                      | None => o_cliOpts target
                      end;
         o_outputPath := match o_outputPath src with
                         | Some v => Some v
                         | None => o_outputPath target
                         end |}
  end.

(** [Object.assign(target, ...sources)], sources applied left to right. *)
Definition Object_assign (target : SettingsObject)
  (sources : list (option SettingsObject)) : SettingsObject :=
  fold_left assignOne sources target.

(** Reading an object as a [MonolithPluginSettings]: both fields are there. *)
Definition asSettings (o : SettingsObject) : option MonolithPluginSettings :=
  match o_cliOpts o, o_outputPath o with
  | Some c, Some p => Some {| cliOpts := c; outputPath := p |}
  | _, _ => None
  end.

(** ** The plugin's world *)

Definition ViewId : Type := nat.

Record Range {H : Host} : Type := {
  from : EditorPosition;
  to : EditorPosition
}.

(** [spawn(command, args, { cwd })]. *)
Record Spawn : Type := {
  command : string;
  args : list string;
  cwd : string
}.

(** What the three handlers registered in [archiveLink] capture. *)
Record Closure {H : Host} : Type := {
  c_view : ViewId;
  c_url : URL;
  c_range : Range;
  c_outputFile : string
}.

Record ChildProcess {H : Host} : Type := {
  spawned : Spawn;
  captured : Closure
}.

(** A child of the settings tab's [containerEl]. *)
Inductive PaneElement : Type :=
| Heading (text : string) (cls : option string)
| SettingItem (name desc placeholder value : string).

Record World {H : Host} : Type := {
  settings : MonolithPluginSettings;     (* this.settings *)
  data : option SettingsObject;          (* what loadData resolves to *)
  activeView : option ViewId;            (* getActiveViewOfType(MarkdownView) *)
  editors : ViewId -> Editor;            (* view.editor, per view *)
  notices : list string;                 (* new Notice(...), oldest first *)
  console : list string;                 (* console.log(...), oldest first *)
  processes : list ChildProcess;         (* spawn(...), oldest first *)
  containerEl : list PaneElement         (* the settings tab *)
}.

(** *** A state monad over the world *)

Definition M {H : Host} (A : Type) : Type := World -> A * World.

Definition ret {H : Host} {A : Type} (a : A) : M A := fun w => (a, w).

Definition bind {H : Host} {A B : Type} (m : M A) (k : A -> M B) : M B :=
  fun w => let '(a, w1) := m w in k a w1.

Notation "x <- m ;; k" := (bind m (fun x => k))
  (at level 61, m at next level, right associativity).
Notation "m ;;; k" := (bind m (fun _ => k))
  (at level 61, right associativity).

Definition gets {H : Host} {A : Type} (f : World -> A) : M A := fun w => (f w, w).

Definition exec {H : Host} {A : Type} (m : M A) (w : World) : World := snd (m w).

Definition Notice {H : Host} (msg : string) : M unit := fun w =>
  (tt, {| settings := settings w; data := data w; activeView := activeView w;
          editors := editors w; notices := notices w ++ [msg];
          console := console w; processes := processes w;
          containerEl := containerEl w |}).

Definition console_log {H : Host} (msg : string) : M unit := fun w =>
  (tt, {| settings := settings w; data := data w; activeView := activeView w;
          editors := editors w; notices := notices w;
          console := console w ++ [msg]; processes := processes w;
          containerEl := containerEl w |}).

Definition spawn {H : Host} (cmd : string) (a : list string) (dir : string)
  (c : Closure) : M unit := fun w =>
  (tt, {| settings := settings w; data := data w; activeView := activeView w;
          editors := editors w; notices := notices w; console := console w;
          processes := processes w ++
            [{| spawned := {| command := cmd; args := a; cwd := dir |};
                captured := c |}];
          containerEl := containerEl w |}).

(** A method of [view.editor] that changes the editor of view [v]. *)
Definition onEditor {H : Host} (v : ViewId) (f : Editor -> Editor) : M unit :=
  fun w =>
  (tt, {| settings := settings w; data := data w; activeView := activeView w;
          editors := fun v' => if Nat.eqb v' v then f (editors w v') else editors w v';
          notices := notices w; console := console w;
          processes := processes w; containerEl := containerEl w |}).

Definition setSettings {H : Host} (s : MonolithPluginSettings) : M unit := fun w =>
  (tt, {| settings := s; data := data w; activeView := activeView w;
          editors := editors w; notices := notices w; console := console w;
          processes := processes w; containerEl := containerEl w |}).

Definition setContainerEl {H : Host} (els : list PaneElement) : M unit := fun w =>
  (tt, {| settings := settings w; data := data w; activeView := activeView w;
          editors := editors w; notices := notices w; console := console w;
          processes := processes w; containerEl := els |}).

(** [this.loadData()] and [this.saveData(d)]: the plugin's [data.json]. *)
Definition loadData {H : Host} : M (option SettingsObject) := gets data.

Definition saveData {H : Host} (d : MonolithPluginSettings) : M unit := fun w =>
  (tt, {| settings := settings w; data := Some (toObject d);
          activeView := activeView w; editors := editors w;
          notices := notices w; console := console w;
          processes := processes w; containerEl := containerEl w |}).

(** ** [loadSettings] and [saveSettings] (the same in both revisions) *)

(** [Object.assign({}, DEFAULT_SETTINGS, await this.loadData())]. *)
Definition loadedObject {H : Host} (stored : option SettingsObject) : SettingsObject :=
  Object_assign emptyObject [Some (toObject DEFAULT_SETTINGS); stored].

Definition loadSettings {H : Host} : M unit :=
  stored <- loadData ;;
  match asSettings (loadedObject stored) with
  | Some s => setSettings s
  | None => ret tt   (* not reached: DEFAULT_SETTINGS has both fields *)
  end.

Definition saveSettings {H : Host} : M unit :=
  s <- gets settings ;;
  saveData s.

(** ** The settings tab (the same in both revisions) *)

Definition empty {H : Host} : M unit := setContainerEl [].

Definition createEl {H : Host} (el : PaneElement) : M unit :=
  els <- gets containerEl ;;
  setContainerEl (els ++ [el]).

Definition hasClass (c : string) (el : PaneElement) : bool :=
  match el with
  | Heading _ (Some k) => k =? c
  | _ => false
  end.

(** [containerEl.querySelector('.' + c)]: the first element of class [c]. *)
Definition querySelector (c : string) (els : list PaneElement) : option PaneElement :=
  find (hasClass c) els.

(** [containerEl.removeChild(err)] for the node [querySelector] found: the
    first element of class [c] goes. *)
Fixpoint removeFirst (c : string) (els : list PaneElement) : list PaneElement :=
  match els with
  | [] => []
  | el :: rest => if hasClass c el then rest else el :: removeFirst c rest
  end.

Definition outErr : PaneElement :=
  Heading "Invalid path will not be saved." (Some "outErr").

(** [SettingTab.display()]. *)
Definition display {H : Host} : M unit :=
  empty ;;;
  createEl (Heading "Monolith plugin settings" None) ;;;
  s <- gets settings ;;
  createEl (SettingItem "Flags" "Used when invoking Monolith."
              "monolith --help" (join " " (cliOpts s))) ;;;
  createEl (SettingItem "Output folder" "Where archived pages will be saved."
              "$HOME" (outputPath s)).

(** [onChange] of the Flags text. *)
Definition onChangeFlags {H : Host} (value : string) : M unit :=
  s <- gets settings ;;
  setSettings {| cliOpts := split " " value; outputPath := outputPath s |} ;;;
  saveSettings.

(** What [await stat(value)] does: it throws, or resolves to stats. *)
Inductive StatResult : Type :=
| StatThrows
| Stats (isDirectory : bool).

(** [onChange] of the Output folder text, from the moment [stat] settles up
    to [await this.plugin.saveSettings()]; [true] when the handler is left
    waiting for the save. *)
Definition onChangeOutput_stat {H : Host} (value : string) (r : StatResult) : M bool :=
  match r with
  | StatThrows =>
      els <- gets containerEl ;;
      match querySelector "outErr" els with
      | None => createEl outErr
      | Some _ => ret tt
      end ;;;
      ret false
  | Stats isDirectory =>
      if isDirectory then
        s <- gets settings ;;
        setSettings {| cliOpts := cliOpts s; outputPath := value |} ;;;
        saveSettings ;;;
        ret true
      else ret false
  end.

(** The rest of the handler, once the save has settled. *)
Definition onChangeOutput_saved {H : Host} : M unit :=
  els <- gets containerEl ;;
  match querySelector "outErr" els with
  | Some _ => setContainerEl (removeFirst "outErr" els)
  | None => ret tt
  end.

(** The handler run without anything in between. *)
Definition onChangeOutput {H : Host} (value : string) (r : StatResult) : M unit :=
  waiting <- onChangeOutput_stat value r ;;
  if waiting then onChangeOutput_saved else ret tt.

(** What can happen in the settings tab, in any order: the tab is shown, the
    flags are edited, a [stat] of an entered output folder settles, a save
    started by the output-folder handler settles. *)
Inductive TabEvent : Type :=
| Display
| FlagsChanged (value : string)
| OutputStat (value : string) (r : StatResult)
| OutputSaved.

Definition tabStep {H : Host} (e : TabEvent) : M unit :=
  match e with
  | Display => display
  | FlagsChanged value => onChangeFlags value
  | OutputStat value r => onChangeOutput_stat value r ;;; ret tt
  | OutputSaved => onChangeOutput_saved
  end.

Fixpoint tabRun {H : Host} (es : list TabEvent) : M unit :=
  match es with
  | [] => ret tt
  | e :: rest => tabStep e ;;; tabRun rest
  end.

(** The values the output-folder handler was given with a [stat] that said
    directory. *)
Fixpoint acceptedPaths (es : list TabEvent) : list string :=
  match es with
  | [] => []
  | OutputStat value (Stats true) :: rest => value :: acceptedPaths rest
  | _ :: rest => acceptedPaths rest
  end.

Definition countClass (c : string) (els : list PaneElement) : nat :=
  List.length (filter (hasClass c) els).

(** ** [archiveLink]: what both revisions share *)

(** [this.settings.cliOpts[0] !== '']: [undefined] (no element) is not ['']. *)
Definition firstIsNotEmpty (opts : list string) : bool :=
  match nth_error opts 0 with
  | Some s => negb (s =? "")
  | None => true
  end.

Definition baseArgs (url : URL) : list string :=
  ["-o" ++ outputFile url; URL_toString url].

(** [const args = (cliOpts[0] !== '') ? [...cliOpts, ...baseArgs] : baseArgs]. *)
Definition spawnArgs (s : MonolithPluginSettings) (url : URL) : list string :=
  if firstIsNotEmpty (cliOpts s) then (cliOpts s ++ baseArgs url)%list
  else baseArgs url.

(** What a child process does to its listeners: chunks on its two streams,
    then [close] with the exit code ([None] for [null], a process ended by
    a signal). *)
Inductive ProcessEvent : Type :=
| StdoutData (chunk : string)
| StderrData (chunk : string)
| Close (code : option Z).

Definition chunkOf (e : ProcessEvent) : list string :=
  match e with
  | StdoutData chunk => [chunk]
  | StderrData chunk => [chunk]
  | Close _ => []
  end.

(** [code === 0]. *)
Definition isZero (code : option Z) : bool :=
  match code with
  | Some z => Z.eqb z 0
  | None => false
  end.

Definition dq : string := String "034" "".

(** ** The revision of [src/main.ts] *)
Module MainTs.

Definition anchorString (outPath outFile : string) : string :=
  "<a class=" ++ dq ++ "archivedLink" ++ dq ++ " href=" ++ dq ++
  "file://" ++ outPath ++ "/" ++ outFile ++ dq ++ ">(archived)</a>".

(** [monolith.on('close', (code) => ...)]. *)
Definition onClose {H : Host} (c : Closure) (code : option Z) : M unit :=
  if isZero code then
    s <- gets settings ;;
    let link := anchorString (outputPath s) (c_outputFile c) in
    onEditor (c_view c) (setSelection (to (c_range c)) (from (c_range c))) ;;;
    onEditor (c_view c)
      (replaceSelection (URL_toString (c_url c) ++ " " ++ link)) ;;;
    Notice "Link archived!"
  else Notice "Archiving failed, check console.".

(** The three listeners of a child process. *)
Definition handle {H : Host} (c : Closure) (e : ProcessEvent) : M unit :=
  match e with
  | StdoutData chunk => console_log chunk
  | StderrData chunk => console_log chunk
  | Close code => onClose c code
  end.

Definition archiveLink {H : Host} (view : ViewId) (url : URL) (range : Range)
  : M unit :=
  s <- gets settings ;;
  spawn "monolith" (spawnArgs s url) (outputPath s)
    {| c_view := view; c_url := url; c_range := range;
       c_outputFile := outputFile url |}.

(** [checkCallback] of the command [archive-link]; [None] is the
    [undefined] of falling off the end.  ([head] and [anchor] are read and
    not used.) *)
Definition checkCallback {H : Host} (checking : bool) : M (option bool) :=
  view <- gets activeView ;;
  eds <- gets editors ;;
  let potentialUrl :=
    orString (match view with
              | Some v => JString (getSelection (eds v))
              | None => JUndefined
              end) "" in
  let range :=
    option_map (fun v => {| from := getCursor CFrom (eds v);
                            to := getCursor CTo (eds v) |}) view in
  let url := newURL potentialUrl in
  match view, url, range with
  | Some v, Some u, Some r =>
      (if negb checking then archiveLink v u r else ret tt) ;;;
      ret (Some true)
  | _, _, _ => ret None
  end.

End MainTs.

(** ** The revision of [src/unnamed/part_000] *)
Module Part000.

Definition linkString (outPath outFile : string) : string :=
  "[(archived)](file://" ++ outPath ++ "/" ++ outFile ++ ")".

Definition onClose {H : Host} (c : Closure) (code : option Z) : M unit :=
  if isZero code then
    s <- gets settings ;;
    let link := linkString (outputPath s) (c_outputFile c) in
    onEditor (c_view c) (setSelection (to (c_range c)) (from (c_range c))) ;;;
    onEditor (c_view c)
      (replaceSelection (URL_toString (c_url c) ++ " " ++ link)) ;;;
    Notice "Link archived!"
  else Notice "Archiving failed, check console.".

Definition handle {H : Host} (c : Closure) (e : ProcessEvent) : M unit :=
  match e with
  | StdoutData chunk => console_log chunk
  | StderrData chunk => console_log chunk
  | Close code => onClose c code
  end.

Definition archiveLink {H : Host} (view : ViewId) (url : URL) (range : Range)
  : M unit :=
  s <- gets settings ;;
  spawn "monolith" (spawnArgs s url) (outputPath s)
    {| c_view := view; c_url := url; c_range := range;
       c_outputFile := outputFile url |}.

(** [if (!view) return true;] comes first here. *)
Definition checkCallback {H : Host} (checking : bool) : M (option bool) :=
  view <- gets activeView ;;
  match view with
  | None => ret (Some true)
  | Some v =>
      eds <- gets editors ;;
      let potentialUrl := orString (JString (getSelection (eds v))) "" in
      let range := {| from := getCursor CFrom (eds v);
                      to := getCursor CTo (eds v) |} in
      match newURL potentialUrl with
      | Some u =>
          (if negb checking then archiveLink v u range else ret tt) ;;;
          ret (Some true)
      | None => ret None
      end
  end.

End Part000.

(** Feeding a process's events, in order, to its listeners. *)
Fixpoint deliver {H : Host} (handle : ProcessEvent -> M unit)
  (es : list ProcessEvent) : M unit :=
  match es with
  | [] => ret tt
  | e :: rest => handle e ;;; deliver handle rest
  end.

(** ** The editor decorations of [src/main.ts] *)
Module MonolithViewPlugin.

(** A CodeMirror document is its lines; a line break takes one position. *)
Definition Text : Type := list string.

Record Line : Type := {
  line_from : nat;
  line_to : nat;
  line_text : string
}.

Fixpoint lineAtFrom (lines : Text) (start pos : nat) : option Line :=
  match lines with
  | [] => None
  | l :: rest =>
      let stop := start + String.length l in
      if (pos <=? stop)%nat
      then Some {| line_from := start; line_to := stop; line_text := l |}
      else lineAtFrom rest (stop + 1) pos
  end.

(** [doc.lineAt(pos)]; [None] for the [RangeError] past the end. *)
Definition lineAt (doc : Text) (pos : nat) : option Line := lineAtFrom doc 0 pos.

Record EditorView : Type := {
  doc : Text;
  visibleRanges : list (nat * nat)
}.

Record LinkWidget : Type := { widget_href : jsval }.

(** The element [LinkWidget.toDOM] makes: an anchor whose click opens its
    own [href] in a window. *)
Record AnchorElement : Type := {
  innerText : string;
  el_href : jsval;
  onclick_opens_href : bool
}.

Definition toDOM (w : LinkWidget) : AnchorElement :=
  {| innerText := "(archived)"; el_href := widget_href w;
     onclick_opens_href := true |}.

(** [Decoration.replace({ widget })]. *)
Record Decoration : Type := {
  widget : LinkWidget;
  startSide : Z
}.

Record AddedRange : Type := {
  r_from : nat;
  r_to : nat;
  r_value : Decoration
}.

(** The builder is the list of the calls [builder.add(from, to, deco)]
    that returned, oldest first, and what [console.log] was given of
    [pos]. *)
Record RangeSetBuilder : Type := {
  added : list AddedRange;
  logged : list nat
}.

Definition newBuilder : RangeSetBuilder := {| added := []; logged := [] |}.

(** [a || b] on numbers: [a] unless it is 0. *)
Definition orNumber (a b : Z) : Z := if (a =? 0)%Z then b else a.

(** [RangeSetBuilder.add] of CodeMirror, which is not in [src/]: a builder
    keeps the range it took last ([lastFrom], [lastTo], [last]) and hands a
    range that starts before [lastTo] to its [nextLayer], a builder of the
    same kind; a range that comes before the last one in the order of
    [from] and [startSide] makes it throw.  [lasts] is the last range of
    each layer, the builder itself first; a layer that has taken nothing
    (or is not there yet) takes any range.  [None] is the throw.
<<
      let diff = from - this.lastTo || value.startSide - this.last.endSide
      if (diff <= 0 &&
          (from - this.lastFrom || value.startSide - this.last.startSide) < 0)
        throw new Error(...)
      if (diff < 0) return false
>>
    Every decoration here comes from [Decoration.replace], so [endSide] is
    [replaceEndSide]. *)
Fixpoint addLayers {H : Host} (lasts : list AddedRange) (r : AddedRange)
  : option (list AddedRange) :=
  match lasts with
  | [] => Some [r]
  | l :: below =>
      let diff :=
        orNumber (Z.of_nat (r_from r) - Z.of_nat (r_to l))
                 (startSide (r_value r) - replaceEndSide) in
      let order :=
        orNumber (Z.of_nat (r_from r) - Z.of_nat (r_from l))
                 (startSide (r_value r) - startSide (r_value l)) in
      if ((diff <=? 0) && (order <? 0))%Z then None
      else if (diff <? 0)%Z then option_map (cons l) (addLayers below r)
      else Some (r :: below)
  end.

(** The layers of a builder that took the ranges [rs] in this order. *)
Definition layersOf {H : Host} (rs : list AddedRange) : option (list AddedRange) :=
  fold_left (fun acc r => match acc with
                          | Some lasts => addLayers lasts r
                          | None => None
                          end) rs (Some []).

(** [builder.add(from, to, value)]; [None] when it throws. *)
Definition builder_add {H : Host} (b : RangeSetBuilder) (r : AddedRange)
  : option RangeSetBuilder :=
  match layersOf (added b) with
  | Some lasts =>
      match addLayers lasts r with
      | Some _ => Some {| added := (added b ++ [r])%list; logged := logged b |}
      | None => None
      end
  | None => None   (* not a builder that [add] built *)
  end.

(** [builder.last] with [builder.lastFrom]: the range the builder itself
    (not a layer below it) took last. *)
Definition lastAdded {H : Host} (b : RangeSetBuilder) : option AddedRange :=
  match layersOf (added b) with
  | Some (l :: _) => Some l
  | _ => None
  end.

Inductive Outcome (A : Type) : Type :=
| Done (a : A)
| Throws (err : string)
| OutOfFuel.
Arguments Throws {A} err.
Arguments OutOfFuel {A}.

Definition parses {H : Host} (s : string) : bool :=
  match newURL s with
  | Some _ => true
  | None => false
  end.

Definition marker : string := "class=" ++ dq ++ "archivedLink" ++ dq.

(** The body of the inner loop for the line at [pos], up to [pos = line.to + 1]. *)
Definition decorateLine {H : Host} (pos : nat) (line : Line) (b : RangeSetBuilder)
  : Outcome RangeSetBuilder :=
  let lineChunks := split " " (line_text line) in
  let b := {| added := added b; logged := (logged b ++ [pos])%list |} in
  match findIndex parses lineChunks with
  | Some i =>
      let afterUrl := join " " (sliceFrom (i + 1) lineChunks) in
      let isArchiveLink :=
        contains marker afterUrl && (sliceLast2 afterUrl =? "a>") in
      if isArchiveLink then
        match firstElementChildHref afterUrl with
        | None => Throws "TypeError"
        | Some h =>
            let startPos := pos + String.length (nth i lineChunks "") + 1 in
            let endPos := startPos + String.length afterUrl in
            let side :=
              match lastAdded b with
              | Some l =>
                  if (r_from l =? line_from line)%nat
                  then (startSide (r_value l) + 1)%Z
                  else replaceStartSide
              | None => replaceStartSide
              end in
            let deco := {| widget := {| widget_href := h |}; startSide := side |} in
            match builder_add b
                    {| r_from := startPos; r_to := endPos; r_value := deco |} with
            | Some b' => Done b'
            | None => Throws "Error"
            end
        end
      else Done b
  | None => Done b
  end.

(** [for (let pos = from; pos <= to;) { ...; pos = line.to + 1 }]. *)
Fixpoint scanRange {H : Host} (fuel : nat) (d : Text) (pos upto : nat)
  (b : RangeSetBuilder) : Outcome RangeSetBuilder :=
  if (upto <? pos)%nat then Done b
  else
    match fuel with
    | O => OutOfFuel
    | S fuel' =>
        match lineAt d pos with
        | None => Throws "RangeError"
        | Some line =>
            match decorateLine pos line b with
            | Done b' => scanRange fuel' d (line_to line + 1) upto b'
            | Throws err => Throws err
            | OutOfFuel => OutOfFuel
            end
        end
    end.

Fixpoint scanRanges {H : Host} (d : Text) (ranges : list (nat * nat))
  (b : RangeSetBuilder) : Outcome RangeSetBuilder :=
  match ranges with
  | [] => Done b
  | (lo, hi) :: rest =>
      match scanRange (S hi - lo) d lo hi b with
      | Done b' => scanRanges d rest b'
      | Throws err => Throws err
      | OutOfFuel => OutOfFuel
      end
  end.

Definition buildDecorations {H : Host} (view : EditorView) : Outcome RangeSetBuilder :=
  scanRanges (doc view) (visibleRanges view) newBuilder.

(** Where the rest of the line after chunk [i] really lies: after the
    chunks up to [i] and the blanks between and after them, to the end of
    the line. *)
Definition remainderFrom (line : Line) (i : nat) : nat :=
  line_from line +
  String.length (join " " (firstn (i + 1) (split " " (line_text line)))) + 1.

Definition remainderTo (line : Line) : nat := line_to line.

(** [DecorationSet]: the ranges of a finished builder; [Decoration.none] is
    the empty one. *)
Definition DecorationSet : Type := list AddedRange.

(** What [update] reads of a [ViewUpdate]: the live-preview field of the
    state, the two change flags and the view. *)
Record ViewUpdate : Type := {
  editorLivePreviewField : bool;
  docChanged : bool;
  viewportChanged : bool;
  update_view : EditorView
}.

(** [builder.finish()] on what [buildDecorations] built. *)
Definition finished (o : Outcome RangeSetBuilder) : Outcome DecorationSet :=
  match o with
  | Done b => Done (added b)
  | Throws err => Throws err
  | OutOfFuel => OutOfFuel
  end.

(** [constructor(view)]. *)
Definition construct {H : Host} (view : EditorView) : Outcome DecorationSet :=
  finished (buildDecorations view).

(** [update(update)]: the decorations the plugin holds afterwards. *)
Definition update {H : Host} (decorations : DecorationSet) (u : ViewUpdate)
  : Outcome DecorationSet :=
  if negb (editorLivePreviewField u) then Done []
  else if docChanged u || viewportChanged u
       then finished (buildDecorations (update_view u))
       else Done decorations.

(** A run of updates; a throw ends it. *)
Fixpoint updates {H : Host} (decorations : DecorationSet) (us : list ViewUpdate)
  : Outcome DecorationSet :=
  match us with
  | [] => Done decorations
  | u :: rest =>
      match update decorations u with
      | Done d => updates d rest
      | Throws err => Throws err
      | OutOfFuel => OutOfFuel
      end
  end.

(** [pos] is where a line of the document starts (or lies past its end). *)
Definition atLineStart (d : Text) (pos : nat) : Prop :=
  match lineAt d pos with
  | Some line => line_from line = pos
  | None => True
  end.

(** Each range ends before the next one starts. *)
Definition inOrder (rs : list AddedRange) : Prop :=
  StronglySorted (fun a b => r_to a < r_from b) rs.

End MonolithViewPlugin.

(** ** A host to run the plugin on

    A buffer with two offsets for the editor, and tables for the URLs and
    the markers the examples use. *)
Record Buffer : Type := {
  content : string;
  anchor : nat;
  head : nat
}.

Definition buf_from (b : Buffer) : nat := Nat.min (anchor b) (head b).
Definition buf_to (b : Buffer) : nat := Nat.max (anchor b) (head b).

Definition buf_getSelection (b : Buffer) : string :=
  substring (buf_from b) (buf_to b - buf_from b) (content b).

Definition buf_getCursor (side : CursorSide) (b : Buffer) : nat :=
  match side with
  | CFrom => buf_from b
  | CTo => buf_to b
  | CHead => head b
  | CAnchor => anchor b
  end.

Definition buf_setSelection (a h : nat) (b : Buffer) : Buffer :=
  {| content := content b;
     anchor := Nat.min a (String.length (content b));
     head := Nat.min h (String.length (content b)) |}.

Definition buf_replaceSelection (t : string) (b : Buffer) : Buffer :=
  let lo := buf_from b in
  let hi := buf_to b in
  {| content := substring 0 lo (content b) ++ t ++
                substring hi (String.length (content b) - hi) (content b);
     anchor := lo + String.length t;
     head := lo + String.length t |}.

Definition lookup (A : Type) (table : list (string * A)) (k : string) : option A :=
  option_map snd (find (fun e => fst e =? k) table).

Definition pageURL : URL :=
  {| href := "https://example.com/page"; pathname := "/page" |}.

(** [new URL] of the text [a:], a scheme and nothing after it. *)
Definition emptyPathURL : URL := {| href := "a:"; pathname := "" |}.

Definition knownURLs : list (string * URL) :=
  [("https://example.com/page", pageURL);
   ("https://example.com/", {| href := "https://example.com/"; pathname := "/" |});
   ("a:", emptyPathURL)].

Definition pageAnchor : string :=
  MainTs.anchorString "/home/u" "page.html".

Definition knownMarkers : list (string * jsval) :=
  [(pageAnchor, JString "file:///home/u/page.html")].

Definition exampleHost : Host :=
  {| Editor := Buffer;
     EditorPosition := nat;
     getSelection := buf_getSelection;
     getCursor := buf_getCursor;
     setSelection := buf_setSelection;
     replaceSelection := buf_replaceSelection;
     newURL := lookup knownURLs;
     homedir := "/home/u";
     firstElementChildHref := lookup knownMarkers;
     replaceStartSide := 499999999;
     replaceEndSide := -599999999 |}.

(** A world on that host: one markdown view, the URL of the page selected
    in it, default settings, nothing stored. *)
Definition exampleWorld : @World exampleHost :=
  @Build_World exampleHost
    (@DEFAULT_SETTINGS exampleHost)
    None
    (Some 0)
    (fun _ => {| content := "see https://example.com/page now"; anchor := 4; head := 28 |})
    [] [] [] [].

(** ** Vocabulary of the statements *)

(** Running [m] from [w] made exactly one call to [spawn], the call [sp]. *)
Definition spawnsExactly {H : Host} (A : Type) (m : M A) (w : World) (sp : Spawn)
  : Prop :=
  map spawned (processes (exec m w)) = (map spawned (processes w) ++ [sp])%list.

(** Running [m] from [w] made no call to [spawn]. *)
Definition spawnsNothing {H : Host} (A : Type) (m : M A) (w : World) : Prop :=
  processes (exec m w) = processes w.

(** The target of the link to the archive. *)
Definition archiveTarget (outPath outFile : string) : string :=
  "file://" ++ outPath ++ "/" ++ outFile.

(** What a successful close leaves: the selection set from [range.to] to
    [range.from] and replaced by [text], in the view the handler captured. *)
Definition spliced {H : Host} (c : Closure) (text : string) (w w' : World) : Prop :=
  editors w' (c_view c) =
    replaceSelection text
      (setSelection (to (c_range c)) (from (c_range c)) (editors w (c_view c))) /\
  (forall v, v <> c_view c -> editors w' v = editors w v).

(** What [archiveLink view url range] hands to the listeners it registers. *)
Definition closureOf {H : Host} (view : ViewId) (url : URL) (range : Range) : Closure :=
  {| c_view := view; c_url := url; c_range := range;
     c_outputFile := outputFile url |}.

Definition exampleClosure : @Closure exampleHost :=
  @closureOf exampleHost 0 pageURL (@Build_Range exampleHost 4 28).

(** The stored value of a field when there is one, otherwise the default. *)
Definition storedOr (A : Type) (field : SettingsObject -> option A)
  (stored : option SettingsObject) (dflt : A) : A :=
  match stored with
  | Some o =>
      match field o with
      | Some v => v
      | None => dflt
      end
  | None => dflt
  end.

(** A line the plugin itself writes: [see ] and the URL of the page, then
    the anchor that a successful archive puts after the URL. *)
Definition archivedLine : string := "see https://example.com/page " ++ pageAnchor.

Definition archivedView : MonolithViewPlugin.EditorView :=
  {| MonolithViewPlugin.doc := [archivedLine];
     MonolithViewPlugin.visibleRanges := [(0, String.length archivedLine)] |}.

(** The world before that archive: the URL is selected at the end of the line. *)
Definition worldBeforeArchive : @World exampleHost :=
  @Build_World exampleHost
    (@DEFAULT_SETTINGS exampleHost)
    None
    (Some 0)
    (fun _ => {| content := "see https://example.com/page"; anchor := 4; head := 28 |})
    [] [] [] [].

(** A line whose text after the URL has the marker and the ending of an
    anchor and no element in it. *)
Definition brokenMarkerLine : string := "a: " ++ MonolithViewPlugin.marker ++ " a>".

(** Loading the settings again would give the settings in use. *)
Definition inSync {H : Host} (w : World) : Prop :=
  settings (exec loadSettings w) = settings w.

(** * Properties *)

Lemma split_not_nil (sep : ascii) (s : string) : split sep s <> [].
Proof.
  induction s as [| c s IH]; simpl; [discriminate |].
  destruct (Ascii.eqb c sep); [discriminate |].
  destruct (split sep s); discriminate.
Qed.

Lemma split_single_is_whole (sep : ascii) (s x : string) :
  split sep s = [x] -> x = s.
Proof.
  revert x. induction s as [| c s IH]; simpl; intros x H.
  - now inversion H.
  - destruct (Ascii.eqb c sep).
    + inversion H as [[Hx Hs]]. now destruct (split_not_nil _ _ Hs).
    + destruct (split sep s) as [| w ws] eqn:E; [now destruct (split_not_nil _ _ E) |].
      inversion H; subst. f_equal. now apply IH.
Qed.

Example split_root : split "/" "/" = [""; ""].
Proof. reflexivity. Qed.

Example split_page : split "/" "/a/page" = [""; "a"; "page"].
Proof. reflexivity. Qed.

Example split_dir : split "/" "/a/dir/" = [""; "a"; "dir"; ""].
Proof. reflexivity. Qed.

Example outputFile_page :
  outputFile {| href := "https://example.com/a/page"; pathname := "/a/page" |} = "page.html".
Proof. reflexivity. Qed.

Example outputFile_dir :
  outputFile {| href := "https://example.com/a/dir/"; pathname := "/a/dir/" |} = "dir.html".
Proof. reflexivity. Qed.

(** ** Running the state monad *)

Lemma exec_bind {H : Host} (A B : Type) (m : M A) (k : A -> M B) (w : World) :
  exec (bind m k) w = exec (k (fst (m w))) (snd (m w)).
Proof. unfold exec, bind. now destruct (m w). Qed.

Lemma exec_seq {H : Host} (A B : Type) (m : M A) (k : M B) (w : World) :
  exec (m ;;; k) w = exec k (exec m w).
Proof. apply exec_bind. Qed.

Ltac run :=
  unfold exec, bind, gets, ret, Notice, console_log, spawn, onEditor,
    setSettings, setContainerEl, saveData, loadData; simpl.

(** ** The output file name *)

Lemma pop_app_last (a : list string) (x : string) :
  pop (a ++ [x])%list = (JString x, a).
Proof. unfold pop. rewrite rev_unit. now rewrite rev_involutive. Qed.

Lemma list_last_cases (A : Type) (l : list A) :
  l = [] \/ exists front x, l = (front ++ [x])%list.
Proof.
  destruct (rev l) as [| x r] eqn:E.
  - left. apply (f_equal (@rev A)) in E. now rewrite rev_involutive in E.
  - right. exists (rev r), x.
    apply (f_equal (@rev A)) in E. now rewrite rev_involutive in E.
Qed.

Lemma segmentByWords_app_last (a : list string) (x : string) :
  segmentByWords (a ++ [x])%list =
  if x =? "" then
    match rev a with
    | [] => None
    | s :: _ => Some s
    end
  else Some x.
Proof. unfold segmentByWords. now rewrite rev_unit. Qed.

(** The name the words of the specification give is the name [archiveLink]
    computes, whenever the words give one. *)
Lemma outputFile_segmentByWords (url : URL) (seg : string) :
  segmentByWords (split "/" (pathname url)) = Some seg ->
  outputFile url = seg ++ ".html".
Proof.
  unfold outputFile, popOrPop.
  destruct (list_last_cases (split "/" (pathname url))) as [E | (a & x & E)].
  - now destruct (split_not_nil _ _ E).
  - rewrite E, segmentByWords_app_last, pop_app_last. simpl.
    destruct (x =? "") eqn:Ex; simpl.
    + destruct (list_last_cases a) as [Ea | (a' & y & Ea)]; subst a.
      * discriminate.
      * rewrite rev_unit, pop_app_last. intros [= <-]. reflexivity.
    + intros [= <-]. reflexivity.
Qed.

Lemma segmentByWords_defined (url : URL) :
  pathname url <> "" ->
  exists seg, segmentByWords (split "/" (pathname url)) = Some seg.
Proof.
  intros Hne.
  destruct (list_last_cases (split "/" (pathname url))) as [E | (a & x & E)].
  - now destruct (split_not_nil _ _ E).
  - rewrite E, segmentByWords_app_last.
    destruct (x =? "") eqn:Ex; [| now exists x].
    destruct (list_last_cases a) as [Ea | (a' & y & Ea)]; subst a.
    + simpl in E. apply split_single_is_whole in E.
      apply String.eqb_eq in Ex. congruence.
    + rewrite rev_unit. now exists y.
Qed.

(** C3, counterexample: the URL [a:] has the empty pathname, whose only
    segment is empty; there is no segment before it, and the file name is
    [undefined.html], which no segment of the path gives. *)
Lemma C3_counterexample_empty_pathname :
  outputFile emptyPathURL = "undefined.html" /\
  split "/" (pathname emptyPathURL) = [""] /\
  (forall seg, In seg (split "/" (pathname emptyPathURL)) ->
               outputFile emptyPathURL <> seg ++ ".html") /\
  ~ named_by_words emptyPathURL.
Proof.
  split; [reflexivity | split; [reflexivity | split]].
  - intros seg [<- | []]. discriminate.
  - intros (seg & Hseg & _). discriminate Hseg.
Qed.

(** C3 (amended): for every URL whose pathname is not empty, the output file
    name is the last segment of the pathname split at [/], or the segment
    before it when the last one is empty, followed by [.html]. *)
Theorem C3_outputFile_last_segment (url : URL) :
  pathname url <> "" -> named_by_words url.
Proof.
  intros Hne. destruct (segmentByWords_defined url Hne) as [seg Hseg].
  exists seg. split; [exact Hseg |].
  now apply outputFile_segmentByWords.
Qed.

Lemma C3_outputFile_last_segment_witness :
  pathname pageURL <> "" /\ named_by_words pageURL.
Proof.
  split; [discriminate | apply (C3_outputFile_last_segment pageURL); discriminate].
Defined.

(** C10: the output file name of every URL ends in [.html]; for the pathname
    [/] both pops give the empty string and the name is [.html] alone. *)
Theorem C10_outputFile_ends_in_html :
  (forall url : URL, endsWith ".html" (outputFile url)) /\
  (forall h : string,
     let url := {| href := h; pathname := "/" |} in
     pop (split "/" (pathname url)) = (JString "", [""]) /\
     pop [""] = (JString "", []) /\
     outputFile url = ".html").
Proof.
  split.
  - intros url. unfold endsWith, outputFile. eexists. reflexivity.
  - intros h. repeat split.
Qed.

(** ** Strings *)

Lemma append_assoc (a b c : string) : (a ++ b) ++ c = a ++ (b ++ c).
Proof. induction a as [| x a IH]; simpl; [reflexivity | now rewrite IH]. Qed.

Lemma orString_self (s : string) : orString (JString s) "" = s.
Proof.
  unfold orString, truthy. destruct (s =? "") eqn:E; simpl; [| reflexivity].
  symmetry. now apply String.eqb_eq.
Qed.

Lemma anchorString_target (outPath outFile : string) :
  MainTs.anchorString outPath outFile =
  "<a class=" ++ dq ++ "archivedLink" ++ dq ++ " href=" ++ dq ++
  archiveTarget outPath outFile ++ dq ++ ">(archived)</a>".
Proof.
  unfold MainTs.anchorString, archiveTarget.
  repeat rewrite append_assoc. reflexivity.
Qed.

Lemma linkString_target (outPath outFile : string) :
  Part000.linkString outPath outFile =
  "[(archived)](" ++ archiveTarget outPath outFile ++ ")".
Proof.
  unfold Part000.linkString, archiveTarget.
  repeat rewrite append_assoc. reflexivity.
Qed.

(** ** The close handler *)

Lemma isZero_true (code : option Z) : isZero code = true <-> code = Some 0%Z.
Proof.
  destruct code as [z |]; simpl; [| split; discriminate].
  rewrite Z.eqb_eq. split; [now intros -> | now intros [= ->]].
Qed.

Lemma isZero_false (code : option Z) : code <> Some 0%Z -> isZero code = false.
Proof.
  intros Hne. destruct (isZero code) eqn:E; [| reflexivity].
  apply isZero_true in E. contradiction.
Qed.

Lemma MainTs_onClose_zero {H : Host} (c : Closure) (w : World) :
  let w' := exec (MainTs.onClose c (Some 0%Z)) w in
  notices w' = (notices w ++ ["Link archived!"])%list /\
  spliced c (URL_toString (c_url c) ++ " " ++
             MainTs.anchorString (outputPath (settings w)) (c_outputFile c)) w w'.
Proof.
  unfold MainTs.onClose, spliced. run. rewrite Nat.eqb_refl.
  repeat split. intros v Hv.
  apply Nat.eqb_neq in Hv. now rewrite Hv.
Qed.

Lemma Part000_onClose_zero {H : Host} (c : Closure) (w : World) :
  let w' := exec (Part000.onClose c (Some 0%Z)) w in
  notices w' = (notices w ++ ["Link archived!"])%list /\
  spliced c (URL_toString (c_url c) ++ " " ++
             Part000.linkString (outputPath (settings w)) (c_outputFile c)) w w'.
Proof.
  unfold Part000.onClose, spliced. run. rewrite Nat.eqb_refl.
  repeat split. intros v Hv.
  apply Nat.eqb_neq in Hv. now rewrite Hv.
Qed.

Lemma MainTs_onClose_nonzero {H : Host} (c : Closure) (code : option Z) (w : World) :
  code <> Some 0%Z ->
  exec (MainTs.onClose c code) w = exec (Notice "Archiving failed, check console.") w.
Proof. intros Hne. unfold MainTs.onClose. now rewrite (isZero_false Hne). Qed.

Lemma Part000_onClose_nonzero {H : Host} (c : Closure) (code : option Z) (w : World) :
  code <> Some 0%Z ->
  exec (Part000.onClose c code) w = exec (Notice "Archiving failed, check console.") w.
Proof. intros Hne. unfold Part000.onClose. now rewrite (isZero_false Hne). Qed.

(** C1: when the archiving process closes with exit code 0, the notice
    [Link archived!] is shown and the link text is written into the editor
    (the URL, a blank and the formatted link replace the range); with any
    other code only the notice [Archiving failed, check console.] is shown
    and no editor changes.  Both revisions. *)
Theorem C1_close_success_or_failure {H : Host} (c : Closure) (w : World) :
  (let w' := exec (MainTs.onClose c (Some 0%Z)) w in
   notices w' = (notices w ++ ["Link archived!"])%list /\
   spliced c (URL_toString (c_url c) ++ " " ++
              MainTs.anchorString (outputPath (settings w)) (c_outputFile c)) w w') /\
  (let w' := exec (Part000.onClose c (Some 0%Z)) w in
   notices w' = (notices w ++ ["Link archived!"])%list /\
   spliced c (URL_toString (c_url c) ++ " " ++
              Part000.linkString (outputPath (settings w)) (c_outputFile c)) w w') /\
  (forall code : option Z, code <> Some 0%Z ->
   forall w', w' = exec (MainTs.onClose c code) w \/
              w' = exec (Part000.onClose c code) w ->
   notices w' = (notices w ++ ["Archiving failed, check console."])%list /\
   editors w' = editors w).
Proof.
  split; [apply MainTs_onClose_zero | split; [apply Part000_onClose_zero |]].
  intros code Hne w' [-> | ->].
  - rewrite (MainTs_onClose_nonzero c w Hne). now split.
  - rewrite (Part000_onClose_nonzero c w Hne). now split.
Qed.

Lemma C1_close_success_or_failure_witness :
  Some 1%Z <> Some 0%Z /\
  notices (exec (@MainTs.onClose exampleHost exampleClosure (Some 1%Z)) exampleWorld) =
    ["Archiving failed, check console."] /\
  editors (exec (@MainTs.onClose exampleHost exampleClosure (Some 1%Z)) exampleWorld) =
    editors exampleWorld.
Proof.
  split; [discriminate |].
  apply (proj2 (proj2 (@C1_close_success_or_failure exampleHost exampleClosure
                         exampleWorld)) (Some 1%Z)).
  - discriminate.
  - left. reflexivity.
Defined.

(** ** [archiveLink] *)

Lemma MainTs_archiveLink_processes {H : Host} (view : ViewId) (url : URL)
  (range : Range) (w : World) :
  processes (exec (MainTs.archiveLink view url range) w) =
  (processes w ++
   [{| spawned := {| command := "monolith";
                     args := spawnArgs (settings w) url;
                     cwd := outputPath (settings w) |};
       captured := closureOf view url range |}])%list.
Proof. reflexivity. Qed.

Lemma Part000_archiveLink_processes {H : Host} (view : ViewId) (url : URL)
  (range : Range) (w : World) :
  processes (exec (Part000.archiveLink view url range) w) =
  (processes w ++
   [{| spawned := {| command := "monolith";
                     args := spawnArgs (settings w) url;
                     cwd := outputPath (settings w) |};
       captured := closureOf view url range |}])%list.
Proof. reflexivity. Qed.

Lemma archiveLink_spawnsExactly {H : Host} (view : ViewId) (url : URL)
  (range : Range) (w : World) :
  let sp := {| command := "monolith"; args := spawnArgs (settings w) url;
               cwd := outputPath (settings w) |} in
  spawnsExactly (MainTs.archiveLink view url range) w sp /\
  spawnsExactly (Part000.archiveLink view url range) w sp.
Proof.
  unfold spawnsExactly.
  rewrite MainTs_archiveLink_processes, Part000_archiveLink_processes.
  rewrite map_app. simpl. now split.
Qed.

Lemma spawnArgs_first_not_empty (s : MonolithPluginSettings) (url : URL) (f : string) :
  nth_error (cliOpts s) 0 = Some f -> f <> "" ->
  spawnArgs s url = (cliOpts s ++ baseArgs url)%list.
Proof.
  intros Hf Hne. unfold spawnArgs, firstIsNotEmpty. rewrite Hf.
  apply String.eqb_neq in Hne. now rewrite Hne.
Qed.

Lemma spawnArgs_first_empty (s : MonolithPluginSettings) (url : URL) :
  nth_error (cliOpts s) 0 = Some "" ->
  spawnArgs s url = baseArgs url.
Proof. intros Hf. unfold spawnArgs, firstIsNotEmpty. now rewrite Hf. Qed.

(** C2: [archiveLink] spawns [monolith] with the configured flags followed
    by [-o<outputFile>] and the URL when the first flag is a non-empty
    string, with [-o<outputFile>] and the URL alone when the first flag is
    the empty string; the working directory is the configured output path.
    Both revisions. *)
Theorem C2_spawn_arguments {H : Host} (view : ViewId) (url : URL) (range : Range)
  (w : World) :
  let s := settings w in
  let base := ["-o" ++ outputFile url; URL_toString url] in
  (forall f : string, nth_error (cliOpts s) 0 = Some f -> f <> "" ->
   let sp := {| command := "monolith"; args := (cliOpts s ++ base)%list;
                cwd := outputPath s |} in
   spawnsExactly (MainTs.archiveLink view url range) w sp /\
   spawnsExactly (Part000.archiveLink view url range) w sp) /\
  (nth_error (cliOpts s) 0 = Some "" ->
   let sp := {| command := "monolith"; args := base; cwd := outputPath s |} in
   spawnsExactly (MainTs.archiveLink view url range) w sp /\
   spawnsExactly (Part000.archiveLink view url range) w sp).
Proof.
  intros s base. split.
  - intros f Hf Hne sp. subst sp base. fold (baseArgs url).
    rewrite <- (spawnArgs_first_not_empty s url Hf Hne).
    apply archiveLink_spawnsExactly.
  - intros Hf sp. subst sp base. fold (baseArgs url).
    rewrite <- (spawnArgs_first_empty s url Hf).
    apply archiveLink_spawnsExactly.
Qed.

Lemma C2_spawn_arguments_witness :
  nth_error (cliOpts (settings exampleWorld)) 0 = Some "--no-js" /\
  "--no-js" <> "" /\
  spawnsExactly (@MainTs.archiveLink exampleHost 0 pageURL (@Build_Range exampleHost 4 28))
    exampleWorld
    {| command := "monolith";
       args := ["--no-js"; "--isolate"; "-opage.html"; "https://example.com/page"];
       cwd := "/home/u" |}.
Proof.
  split; [reflexivity | split; [discriminate |]].
  apply (proj1 (@C2_spawn_arguments exampleHost 0 pageURL
                  (@Build_Range exampleHost 4 28) exampleWorld) "--no-js").
  - reflexivity.
  - discriminate.
Defined.

(** C5: when the process spawned by [archiveLink view url range] closes with
    code 0, the text put in place of the range is the URL, one blank, and
    the formatted link, whose target is [file://<outputPath>/<outputFile>]
    with the output path configured at that moment; the link is an anchor
    in [main.ts] and a markdown link in [part_000]. *)
Theorem C5_spliced_text {H : Host} (view : ViewId) (url : URL) (range : Range)
  (w0 w : World) :
  let c := closureOf view url range in
  let target := archiveTarget (outputPath (settings w)) (outputFile url) in
  (map captured (processes (exec (MainTs.archiveLink view url range) w0)) =
     (map captured (processes w0) ++ [c])%list /\
   spliced c
     (URL_toString url ++ " " ++
      ("<a class=" ++ dq ++ "archivedLink" ++ dq ++ " href=" ++ dq ++
       target ++ dq ++ ">(archived)</a>"))
     w (exec (MainTs.onClose c (Some 0%Z)) w)) /\
  (map captured (processes (exec (Part000.archiveLink view url range) w0)) =
     (map captured (processes w0) ++ [c])%list /\
   spliced c
     (URL_toString url ++ " " ++ ("[(archived)](" ++ target ++ ")"))
     w (exec (Part000.onClose c (Some 0%Z)) w)).
Proof.
  intros c target. subst target. split; split.
  - rewrite MainTs_archiveLink_processes, map_app. reflexivity.
  - rewrite <- anchorString_target. apply MainTs_onClose_zero.
  - rewrite Part000_archiveLink_processes, map_app. reflexivity.
  - rewrite <- linkString_target. apply Part000_onClose_zero.
Qed.

(** On the example host the splice is the text between the two offsets:
    archiving the selected URL of the example world puts the anchor after
    it and leaves the text around it. *)
Example archive_then_close_example :
  let w1 := exec (@MainTs.checkCallback exampleHost false) exampleWorld in
  let w2 := exec (MainTs.onClose exampleClosure (Some 0%Z)) w1 in
  map captured (processes w1) = [exampleClosure] /\
  content (editors w2 0) =
    "see https://example.com/page " ++ pageAnchor ++ " now" /\
  notices w2 = ["Link archived!"].
Proof. repeat split. Qed.

(** ** The command *)

Lemma MainTs_checkCallback_eq {H : Host} (checking : bool) (w : World) :
  MainTs.checkCallback checking w =
  match activeView w with
  | Some v =>
      match newURL (getSelection (editors w v)) with
      | Some u =>
          (Some true,
           if checking then w
           else exec (MainTs.archiveLink v u
                        {| from := getCursor CFrom (editors w v);
                           to := getCursor CTo (editors w v) |}) w)
      | None => (None, w)
      end
  | None => (None, w)
  end.
Proof.
  unfold MainTs.checkCallback, bind, gets, ret.
  destruct (activeView w) as [v |]; cbn [option_map].
  - rewrite orString_self.
    destruct (newURL (getSelection (editors w v))); [| reflexivity].
    now destruct checking.
  - now destruct (newURL (orString JUndefined "")).
Qed.

Lemma Part000_checkCallback_eq {H : Host} (checking : bool) (w : World) :
  Part000.checkCallback checking w =
  match activeView w with
  | Some v =>
      match newURL (getSelection (editors w v)) with
      | Some u =>
          (Some true,
           if checking then w
           else exec (Part000.archiveLink v u
                        {| from := getCursor CFrom (editors w v);
                           to := getCursor CTo (editors w v) |}) w)
      | None => (None, w)
      end
  | None => (Some true, w)
  end.
Proof.
  unfold Part000.checkCallback, bind, gets, ret.
  destruct (activeView w) as [v |]; [| reflexivity].
  rewrite orString_self.
  destruct (newURL (getSelection (editors w v))); [| reflexivity].
  now destruct checking.
Qed.

(** In [main.ts] the command is reported runnable exactly when a markdown
    view is active and its selection parses as a URL, and only then, and
    only when not checking, is a process spawned. *)
Lemma MainTs_checkCallback_runnable_iff {H : Host} (checking : bool) (w : World) :
  (fst (MainTs.checkCallback checking w) = Some true <->
   exists v u, activeView w = Some v /\
               newURL (getSelection (editors w v)) = Some u) /\
  (processes (exec (MainTs.checkCallback checking) w) <> processes w ->
   checking = false /\
   exists v u, activeView w = Some v /\
               newURL (getSelection (editors w v)) = Some u).
Proof.
  unfold exec. rewrite MainTs_checkCallback_eq.
  destruct (activeView w) as [v |]; simpl.
  - destruct (newURL (getSelection (editors w v))) as [u |] eqn:E; simpl.
    + split; [split; [intros _; now exists v, u | reflexivity] |].
      destruct checking; [now intros [] |].
      intros _. split; [reflexivity | now exists v, u].
    + split; [split; [discriminate | intros (v' & u' & [= <-] & Hu); congruence] |].
      now intros [].
  - split; [split; [discriminate | intros (v' & u' & Hv & _); discriminate] |].
    now intros [].
Qed.

(** X18: in [part_000] the check answers [true] exactly when no markdown
    view is active or the selection of the active one parses as a URL; a
    process is spawned only when a view is active, its selection parses and
    [checking] is false. *)
Lemma Part000_checkCallback_runnable_iff {H : Host} (checking : bool) (w : World) :
  (fst (Part000.checkCallback checking w) = Some true <->
   activeView w = None \/
   exists v u, activeView w = Some v /\
               newURL (getSelection (editors w v)) = Some u) /\
  (processes (exec (Part000.checkCallback checking) w) <> processes w ->
   checking = false /\
   exists v u, activeView w = Some v /\
               newURL (getSelection (editors w v)) = Some u).
Proof.
  unfold exec. rewrite Part000_checkCallback_eq.
  destruct (activeView w) as [v |]; simpl.
  - destruct (newURL (getSelection (editors w v))) as [u |] eqn:E; simpl.
    + split; [split; [intros _; right; now exists v, u | reflexivity] |].
      destruct checking; [now intros [] |].
      intros _. split; [reflexivity | now exists v, u].
    + split; [split; [discriminate |] |].
      * intros [Hv | (v' & u' & [= <-] & Hu)]; [discriminate | congruence].
      * now intros [].
  - split; [split; [now left | reflexivity] |].
    now intros [].
Qed.

(** Checking alone never spawns. *)
Lemma checkCallback_checking_spawnsNothing {H : Host} (w : World) :
  spawnsNothing (MainTs.checkCallback true) w /\
  spawnsNothing (Part000.checkCallback true) w.
Proof.
  unfold spawnsNothing, exec.
  rewrite MainTs_checkCallback_eq, Part000_checkCallback_eq.
  destruct (activeView w) as [v |]; [| now split].
  now destruct (newURL (getSelection (editors w v))).
Qed.

(** C4, at the input that breaks it: with no active markdown view the check
    of [part_000] answers [true], the command is reported runnable, for
    either value of [checking] (and nothing else happens); the check of
    [main.ts] answers [undefined] there. *)
Theorem C4_part000_runnable_without_view {H : Host}
  (s : MonolithPluginSettings) (d : option SettingsObject)
  (eds : ViewId -> Editor) (ns cs : list string)
  (ps : list ChildProcess) (els : list PaneElement) (checking : bool) :
  let w := {| settings := s; data := d; activeView := None; editors := eds;
              notices := ns; console := cs; processes := ps;
              containerEl := els |} in
  Part000.checkCallback checking w = (Some true, w) /\
  MainTs.checkCallback checking w = (None, w).
Proof.
  intros w. rewrite Part000_checkCallback_eq, MainTs_checkCallback_eq.
  now split.
Qed.

(** ** The process and its streams *)

Lemma MainTs_handle_console {H : Host} (c : Closure) (e : ProcessEvent) (w : World) :
  console (exec (MainTs.handle c e) w) = (console w ++ chunkOf e)%list.
Proof.
  destruct e as [chunk | chunk | code]; simpl; try reflexivity.
  unfold MainTs.onClose. rewrite app_nil_r.
  now destruct (isZero code).
Qed.

Lemma Part000_handle_console {H : Host} (c : Closure) (e : ProcessEvent) (w : World) :
  console (exec (Part000.handle c e) w) = (console w ++ chunkOf e)%list.
Proof.
  destruct e as [chunk | chunk | code]; simpl; try reflexivity.
  unfold Part000.onClose. rewrite app_nil_r.
  now destruct (isZero code).
Qed.

Lemma deliver_console {H : Host} (handle : ProcessEvent -> M unit) :
  (forall e w, console (exec (handle e) w) = (console w ++ chunkOf e)%list) ->
  forall es w,
    console (exec (deliver handle es) w) = (console w ++ flat_map chunkOf es)%list.
Proof.
  intros Hh es. induction es as [| e es IH]; intros w; simpl.
  - now rewrite app_nil_r.
  - rewrite exec_seq, IH, Hh. now rewrite <- app_assoc.
Qed.

Lemma flat_map_chunkOf_close (es : list ProcessEvent) (code : option Z) :
  flat_map chunkOf (es ++ [Close code]) = flat_map chunkOf es.
Proof. rewrite flat_map_app. simpl. now rewrite app_nil_r. Qed.

(** X20: every call of [archiveLink] spawns exactly one process, [monolith];
    so does every run of the command (the check called with [false]) on an
    active view whose selection parses; and whatever chunks the process
    writes to its standard output and standard error before it closes, each
    is logged to the console, in order.  Both revisions. *)
Theorem archiveLink_one_process_streams_logged {H : Host} :
  (forall view url range w, exists sp,
     command sp = "monolith" /\
     spawnsExactly (MainTs.archiveLink view url range) w sp /\
     spawnsExactly (Part000.archiveLink view url range) w sp) /\
  (forall w v u,
     activeView w = Some v ->
     newURL (getSelection (editors w v)) = Some u ->
     exists sp,
       command sp = "monolith" /\
       spawnsExactly (MainTs.checkCallback false) w sp /\
       spawnsExactly (Part000.checkCallback false) w sp) /\
  (forall (c : Closure) (es : list ProcessEvent) (code : option Z) (w : World),
     console (exec (deliver (MainTs.handle c) (es ++ [Close code])) w) =
       (console w ++ flat_map chunkOf es)%list /\
     console (exec (deliver (Part000.handle c) (es ++ [Close code])) w) =
       (console w ++ flat_map chunkOf es)%list).
Proof.
  split; [| split].
  - intros view url range w.
    exists {| command := "monolith"; args := spawnArgs (settings w) url;
              cwd := outputPath (settings w) |}.
    split; [reflexivity | apply archiveLink_spawnsExactly].
  - intros w v u Hv Hu.
    exists {| command := "monolith"; args := spawnArgs (settings w) u;
              cwd := outputPath (settings w) |}.
    split; [reflexivity |].
    unfold spawnsExactly, exec.
    rewrite MainTs_checkCallback_eq, Part000_checkCallback_eq, Hv, Hu. simpl.
    apply archiveLink_spawnsExactly.
  - intros c es code w. split.
    + rewrite (deliver_console _ (MainTs_handle_console c)).
      now rewrite flat_map_chunkOf_close.
    + rewrite (deliver_console _ (Part000_handle_console c)).
      now rewrite flat_map_chunkOf_close.
Qed.

Lemma archiveLink_one_process_streams_logged_witness :
  activeView exampleWorld = Some 0 /\
  @newURL exampleHost (@getSelection exampleHost (editors exampleWorld 0)) =
    Some pageURL /\
  exists sp,
    command sp = "monolith" /\
    spawnsExactly (@MainTs.checkCallback exampleHost false) exampleWorld sp /\
    spawnsExactly (@Part000.checkCallback exampleHost false) exampleWorld sp.
Proof.
  split; [reflexivity | split; [reflexivity |]].
  apply (proj1 (proj2 (@archiveLink_one_process_streams_logged exampleHost))
           exampleWorld 0 pageURL); reflexivity.
Defined.

(** C7, at the input that breaks it: in [part_000], with no active markdown
    view, the command is offered (the check called with [true] answers
    [true]) and a run of it (the check called with [false]) answers [true]
    and spawns no process at all; in [main.ts] the same run answers
    [undefined], the command is not run.  The early return of [part_000]
    that C4 reports is the cause. *)
Theorem C7_part000_run_without_view_spawns_nothing {H : Host}
  (s : MonolithPluginSettings) (d : option SettingsObject)
  (eds : ViewId -> Editor) (ns cs : list string)
  (ps : list ChildProcess) (els : list PaneElement) :
  let w := {| settings := s; data := d; activeView := None; editors := eds;
              notices := ns; console := cs; processes := ps;
              containerEl := els |} in
  fst (Part000.checkCallback true w) = Some true /\
  fst (Part000.checkCallback false w) = Some true /\
  spawnsNothing (Part000.checkCallback false) w /\
  (forall sp, ~ spawnsExactly (Part000.checkCallback false) w sp) /\
  fst (MainTs.checkCallback false w) = None.
Proof.
  intros w. unfold spawnsNothing, spawnsExactly, exec.
  rewrite !Part000_checkCallback_eq, MainTs_checkCallback_eq. simpl.
  repeat split.
  intros sp Hs. apply (f_equal (@List.length Spawn)) in Hs.
  rewrite length_app in Hs. simpl in Hs. lia.
Qed.

Example streams_logged_example :
  console (exec (deliver (MainTs.handle exampleClosure)
                   [StdoutData "saving"; StderrData "warning"; StdoutData "done";
                    Close (Some 0%Z)]) exampleWorld) =
  ["saving"; "warning"; "done"].
Proof. reflexivity. Qed.

(** ** Settings: load and save *)

Lemma asSettings_loadedObject {H : Host} (stored : option SettingsObject) :
  asSettings (loadedObject stored) =
  Some {| cliOpts := storedOr o_cliOpts stored ["--no-js"; "--isolate"];
          outputPath := storedOr o_outputPath stored homedir |}.
Proof.
  destruct stored as [[[c |] [p |]] |]; reflexivity.
Qed.

Lemma loadSettings_settings {H : Host} (w : World) :
  settings (exec loadSettings w) =
  {| cliOpts := storedOr o_cliOpts (data w) ["--no-js"; "--isolate"];
     outputPath := storedOr o_outputPath (data w) homedir |}.
Proof.
  unfold loadSettings, exec, bind, loadData, gets. simpl.
  now rewrite asSettings_loadedObject.
Qed.

Lemma asSettings_toObject (s : MonolithPluginSettings) :
  asSettings (toObject s) = Some s.
Proof. now destruct s. Qed.

(** C6: a settings record is its two fields, the flags and the output path;
    [loadSettings] takes each field from the stored data when it is there
    and from the defaults ([--no-js], [--isolate]; the home directory)
    otherwise; a change of the flags or an accepted change of the output
    folder is saved, and what was saved loads back as it was. *)
Theorem C6_settings_record_load_save {H : Host} :
  (forall s : MonolithPluginSettings,
     s = {| cliOpts := cliOpts s; outputPath := outputPath s |}) /\
  (forall w : World,
     settings (exec loadSettings w) =
     {| cliOpts := storedOr o_cliOpts (data w) ["--no-js"; "--isolate"];
        outputPath := storedOr o_outputPath (data w) homedir |}) /\
  (forall (value : string) (w : World),
     let w' := exec (onChangeFlags value) w in
     settings w' = {| cliOpts := split " " value;
                      outputPath := outputPath (settings w) |} /\
     data w' = Some (toObject (settings w'))) /\
  (forall (value : string) (w : World),
     let w' := exec (onChangeOutput value (Stats true)) w in
     settings w' = {| cliOpts := cliOpts (settings w); outputPath := value |} /\
     data w' = Some (toObject (settings w'))) /\
  (forall w : World,
     data (exec saveSettings w) = Some (toObject (settings w)) /\
     settings (exec (saveSettings ;;; loadSettings) w) = settings w).
Proof.
  split; [now intros [] |].
  split; [apply loadSettings_settings |].
  split; [intros value w; split; reflexivity |].
  split.
  - intros value w. unfold onChangeOutput, onChangeOutput_stat, onChangeOutput_saved.
    run. destruct (querySelector "outErr" (containerEl w)); split; reflexivity.
  - intros w. split; [reflexivity |].
    rewrite exec_seq, loadSettings_settings. simpl. now destruct (settings w).
Qed.

Example loadSettings_partial_example :
  settings (exec (@loadSettings exampleHost)
    (@Build_World exampleHost (@DEFAULT_SETTINGS exampleHost)
       (Some {| o_cliOpts := Some ["-q"]; o_outputPath := None |})
       None (editors exampleWorld) [] [] [] [])) =
  {| cliOpts := ["-q"]; outputPath := "/home/u" |}.
Proof. reflexivity. Qed.

(** ** The settings tab *)

Lemma countClass_app (c : string) (a b : list PaneElement) :
  countClass c (a ++ b) = countClass c a + countClass c b.
Proof. unfold countClass. now rewrite filter_app, length_app. Qed.

Lemma querySelector_None_count (c : string) (els : list PaneElement) :
  querySelector c els = None -> countClass c els = 0.
Proof.
  unfold querySelector, countClass.
  induction els as [| el els IH]; simpl; [reflexivity |].
  destruct (hasClass c el); [discriminate | exact IH].
Qed.

Lemma countClass_removeFirst (c : string) (els : list PaneElement) :
  countClass c (removeFirst c els) <= countClass c els.
Proof.
  unfold countClass.
  induction els as [| el els IH]; simpl; [lia |].
  destruct (hasClass c el) eqn:E; simpl; [lia |].
  now rewrite E.
Qed.

Lemma display_containerEl {H : Host} (w : World) :
  countClass "outErr" (containerEl (exec display w)) = 0 /\
  settings (exec display w) = settings w /\
  data (exec display w) = data w.
Proof. repeat split. Qed.

Lemma tabStep_count {H : Host} (e : TabEvent) (w : World) :
  countClass "outErr" (containerEl w) <= 1 ->
  countClass "outErr" (containerEl (exec (tabStep e) w)) <= 1.
Proof.
  intros Hc. destruct e as [| value | value r |]; cbn [tabStep].
  - destruct (display_containerEl w) as [-> _]. lia.
  - exact Hc.
  - unfold onChangeOutput_stat. destruct r as [| []]; run; try exact Hc.
    destruct (querySelector "outErr" (containerEl w)) eqn:Q; simpl; [exact Hc |].
    rewrite countClass_app, (querySelector_None_count _ _ Q).
    unfold countClass. simpl. lia.
  - unfold onChangeOutput_saved. run.
    destruct (querySelector "outErr" (containerEl w)); simpl; [| exact Hc].
    pose proof (countClass_removeFirst "outErr" (containerEl w)). lia.
Qed.

Lemma tabStep_outputPath {H : Host} (e : TabEvent) (w : World) :
  let w' := exec (tabStep e) w in
  match e with
  | OutputStat value (Stats true) => outputPath (settings w') = value
  | _ => outputPath (settings w') = outputPath (settings w)
  end.
Proof.
  destruct e as [| value | value r |]; simpl; try reflexivity.
  - unfold onChangeOutput_stat. destruct r as [| []]; run; try reflexivity.
    now destruct (querySelector "outErr" (containerEl w)).
  - unfold onChangeOutput_saved. run.
    now destruct (querySelector "outErr" (containerEl w)).
Qed.

Lemma tabRun_invariant {H : Host} (es : list TabEvent) :
  forall w : World,
    countClass "outErr" (containerEl w) <= 1 ->
    let w' := exec (tabRun es) w in
    countClass "outErr" (containerEl w') <= 1 /\
    In (outputPath (settings w')) (outputPath (settings w) :: acceptedPaths es).
Proof.
  induction es as [| e es IH]; intros w Hc; simpl.
  - split; [exact Hc | now left].
  - rewrite exec_seq.
    destruct (IH (exec (tabStep e) w) (tabStep_count e w Hc)) as [Hc' Hin].
    split; [exact Hc' |].
    pose proof (tabStep_outputPath e w) as Hp. simpl in Hp.
    destruct Hin as [Heq | Hin].
    + destruct e as [| value | value [| []] |];
        try (left; now rewrite <- Heq, Hp).
      right. left. now rewrite <- Heq, Hp.
    + destruct e as [| value | value [| []] |]; try (now right).
      right. now right.
Qed.

(** C9: the output-folder handler changes and saves the output path only
    when [stat] of the entered value says directory; for any other outcome
    the settings and the stored data stay as they were.  Whatever is done in
    the settings tab once it is shown, in any order, at most one element of
    class [outErr] (the heading [Invalid path will not be saved.]) is in the
    pane, and the output path is the one before or a value that [stat]
    said was a directory when it was entered. *)
Theorem C9_output_folder_only_directories {H : Host} :
  (forall (value : string) (r : StatResult) (w : World),
     let w' := exec (onChangeOutput value r) w in
     match r with
     | Stats true =>
         outputPath (settings w') = value /\
         data w' = Some (toObject (settings w'))
     | _ => settings w' = settings w /\ data w' = data w
     end /\
     (countClass "outErr" (containerEl w) <= 1 ->
      countClass "outErr" (containerEl w') <= 1)) /\
  (forall (es : list TabEvent) (w : World),
     let w' := exec (tabRun (Display :: es)) w in
     countClass "outErr" (containerEl w') <= 1 /\
     In (outputPath (settings w')) (outputPath (settings w) :: acceptedPaths es)).
Proof.
  split.
  - intros value r w. split.
    + unfold onChangeOutput, onChangeOutput_stat, onChangeOutput_saved.
      destruct r as [| []]; run;
        destruct (querySelector "outErr" (containerEl w)); now split.
    + intros Hc. unfold onChangeOutput. rewrite exec_bind.
      pose proof (tabStep_count (OutputStat value r) w Hc) as H1.
      simpl in H1. rewrite exec_seq in H1. unfold exec at 1 in H1. simpl in H1.
      destruct (fst (onChangeOutput_stat value r w)); [| exact H1].
      apply (tabStep_count OutputSaved _ H1).
  - intros es w. simpl. rewrite exec_seq.
    destruct (display_containerEl w) as (Hc & Hs & _).
    assert (Hc1 : countClass "outErr" (containerEl (exec display w)) <= 1) by lia.
    destruct (tabRun_invariant es _ Hc1) as [Hc' Hin].
    split; [exact Hc' |]. now rewrite Hs in Hin.
Qed.

Lemma C9_output_folder_only_directories_witness :
  countClass "outErr" (containerEl exampleWorld) <= 1 /\
  countClass "outErr"
    (containerEl (exec (@onChangeOutput exampleHost "/nowhere" StatThrows)
                    exampleWorld)) <= 1.
Proof.
  split; [unfold countClass; simpl; lia |].
  apply (proj2 (proj1 (@C9_output_folder_only_directories exampleHost)
                  "/nowhere" StatThrows exampleWorld)).
  unfold countClass; simpl; lia.
Defined.

Example settings_tab_example :
  let w' := exec (@tabRun exampleHost
                    [Display; OutputStat "/x" StatThrows; OutputStat "/y" StatThrows;
                     OutputStat "/etc/passwd" (Stats false);
                     OutputStat "/tmp" (Stats true)]) exampleWorld in
  settings w' = {| cliOpts := ["--no-js"; "--isolate"]; outputPath := "/tmp" |} /\
  countClass "outErr" (containerEl w') = 1 /\
  countClass "outErr" (containerEl (exec onChangeOutput_saved w')) = 0.
Proof. repeat split. Qed.

(** ** The decorations *)

Import MonolithViewPlugin.

(** The line of the failing input is what [archiveLink] of [main.ts] leaves
    in the editor when the archived URL ends its line. *)
Example archivedLine_written_by_plugin :
  let w1 := exec (@MainTs.checkCallback exampleHost false) worldBeforeArchive in
  let w2 := exec (MainTs.onClose exampleClosure (Some 0%Z)) w1 in
  map captured (processes w1) = [exampleClosure] /\
  content (editors w2 0) = archivedLine.
Proof. split; reflexivity. Qed.

(** C8, at an input that breaks it: on the line
    [see https://example.com/page <a class=archivedLink ...>(archived)</a>]
    the second chunk parses as a URL and the rest of the line after it is
    the marker, which lies from 29 to 99; the decoration is added from 25
    to 95, four positions (the length of [see ]) to the left.  Its widget
    has the href of the marker's anchor. *)
Theorem C8_decoration_shifted_when_url_not_first :
  let line := {| line_from := 0; line_to := 99; line_text := archivedLine |} in
  lineAt (doc archivedView) 0 = Some line /\
  findIndex (@parses exampleHost) (split " " archivedLine) = Some 1 /\
  join " " (sliceFrom 2 (split " " archivedLine)) = pageAnchor /\
  contains marker pageAnchor = true /\
  sliceLast2 pageAnchor = "a>" /\
  (remainderFrom line 1, remainderTo line) = (29, 99) /\
  @buildDecorations exampleHost archivedView =
    Done {| added :=
              [{| r_from := 25; r_to := 95;
                  r_value :=
                    {| widget := {| widget_href := JString "file:///home/u/page.html" |};
                       startSide := 499999999 |} |}];
            logged := [0] |}.
Proof. repeat split. Qed.

Lemma length_append (a b : string) :
  String.length (a ++ b) = String.length a + String.length b.
Proof. induction a as [| x a IH]; simpl; [reflexivity | now rewrite IH]. Qed.

(** Joining what [split] gave with the separator gives the string back. *)
Lemma join_split (sep : ascii) (s : string) :
  join (String sep "") (split sep s) = s.
Proof.
  induction s as [| c s IH]; [reflexivity |].
  simpl. destruct (Ascii.eqb c sep) eqn:E.
  - apply Ascii.eqb_eq in E. subst c.
    destruct (split sep s) as [| w ws] eqn:Es; [now destruct (split_not_nil _ _ Es) |].
    simpl in *. now rewrite IH.
  - destruct (split sep s) as [| w ws] eqn:Es; [now destruct (split_not_nil _ _ Es) |].
    destruct ws as [| x r]; simpl in *; now rewrite <- IH.
Qed.

Lemma join_cons_cons (sep x y : string) (r : list string) :
  join sep (x :: y :: r) = x ++ sep ++ join sep (y :: r).
Proof. reflexivity. Qed.

Lemma nth_le_join_firstn (l : list string) :
  forall j, j < List.length l ->
  String.length (nth j l "") <= String.length (join " " (firstn (j + 1) l)).
Proof.
  induction l as [| x r IH]; intros j Hj; simpl in Hj; [lia |].
  destruct j as [| k].
  - simpl. destruct r; simpl; lia.
  - assert (Hk : k < List.length r) by lia.
    specialize (IH k Hk).
    change (firstn (S k + 1) (x :: r)) with (x :: firstn (k + 1) r).
    change (nth (S k) (x :: r) "") with (nth k r "").
    destruct (firstn (k + 1) r) as [| y r'] eqn:E.
    + destruct r; [simpl in Hk; lia |].
      rewrite Nat.add_1_r in E. discriminate E.
    + rewrite join_cons_cons, !length_append. lia.
Qed.

(** When the chunk that parses is not the first, the position the builder
    starts from lies before the rest of the line. *)
Lemma startPos_before_remainder (line : Line) (i : nat) :
  1 <= i -> i < List.length (split " " (line_text line)) ->
  line_from line + String.length (nth i (split " " (line_text line)) "") + 1
  < remainderFrom line i.
Proof.
  intros Hi Hlen. unfold remainderFrom.
  destruct (split " " (line_text line)) as [| x r]; [simpl in Hlen; lia |].
  destruct i as [| k]; [lia |].
  assert (Hk : k < List.length r) by (simpl in Hlen; lia).
  pose proof (nth_le_join_firstn r Hk) as Hle.
  change (firstn (S k + 1) (x :: r)) with (x :: firstn (k + 1) r).
  change (nth (S k) (x :: r) "") with (nth k r "").
  destruct (firstn (k + 1) r) as [| y r'] eqn:E.
  - destruct r; [simpl in Hk; lia |].
    rewrite Nat.add_1_r in E. discriminate E.
  - rewrite join_cons_cons, !length_append.
    change (String.length " ") with 1. lia.
Qed.

(** When the chunk that parses is the first and something follows it, the
    positions the builder computes from the start of the line are those of
    the rest of the line. *)
Lemma startPos_is_remainder_for_first_chunk (line : Line) (x y : string)
  (r : list string) :
  line_to line = line_from line + String.length (line_text line) ->
  split " " (line_text line) = x :: y :: r ->
  let startPos := line_from line + String.length x + 1 in
  startPos = remainderFrom line 0 /\
  startPos + String.length (join " " (y :: r)) = remainderTo line.
Proof.
  intros Hto Hs. unfold remainderFrom, remainderTo. rewrite Hs. simpl firstn.
  split; [reflexivity |].
  rewrite Hto, <- (join_split " " (line_text line)), Hs.
  rewrite join_cons_cons, !length_append.
  change (String.length " ") with 1. lia.
Qed.

Lemma lineAtFrom_span (lines : Text) :
  forall start pos line,
    lineAtFrom lines start pos = Some line ->
    pos <= line_to line /\
    line_to line = line_from line + String.length (line_text line).
Proof.
  induction lines as [| l rest IH]; intros start pos line; simpl; [discriminate |].
  destruct (Nat.leb_spec pos (start + String.length l)).
  - intros [= <-]. simpl. lia.
  - apply IH.
Qed.

Lemma decorateLine_not_OutOfFuel {H : Host} (pos : nat) (line : Line)
  (b : RangeSetBuilder) :
  decorateLine pos line b <> OutOfFuel.
Proof.
  unfold decorateLine.
  destruct (findIndex parses (split " " (line_text line))) as [i |]; [| discriminate].
  match goal with |- context [if ?c then _ else _] => destruct c end;
    [| discriminate].
  match goal with |- context [firstElementChildHref ?a] =>
    destruct (firstElementChildHref a) end; [| discriminate].
  match goal with |- context [builder_add ?x ?r] =>
    destruct (builder_add x r) end; discriminate.
Qed.

(** The loop of [buildDecorations] ends: the fuel given to [scanRange] for a
    visible range is enough. *)
Lemma scanRange_enough_fuel {H : Host} (d : Text) (upto : nat) :
  forall fuel pos b,
    S upto - pos <= fuel -> scanRange fuel d pos upto b <> OutOfFuel.
Proof.
  induction fuel as [| fuel IH]; intros pos b Hf; simpl.
  - destruct (Nat.ltb_spec upto pos); [discriminate | lia].
  - destruct (Nat.ltb_spec upto pos); [discriminate |].
    destruct (lineAt d pos) as [line |] eqn:El; [| discriminate].
    destruct (decorateLine pos line b) as [b' | err |] eqn:Ed; [| discriminate |].
    + apply IH. destruct (lineAtFrom_span _ _ _ El) as [Hle _]. lia.
    + now destruct (decorateLine_not_OutOfFuel pos line b).
Qed.

Lemma buildDecorations_total {H : Host} (view : EditorView) :
  buildDecorations view <> OutOfFuel.
Proof.
  unfold buildDecorations. generalize newBuilder.
  induction (visibleRanges view) as [| [lo hi] rest IH]; intros b;
    cbn [scanRanges]; [discriminate |].
  destruct (scanRange (S hi - lo) (doc view) lo hi b) as [b' | err |] eqn:E.
  - apply IH.
  - discriminate.
  - exfalso. revert E. apply scanRange_enough_fuel. lia.
Qed.

(** A visible range that begins inside a line: the range of the first line
    is placed from [pos], beyond where the range of the second line starts,
    and [builder.add] throws on the second. *)
Example add_throws_after_a_start_inside_a_line :
  @buildDecorations exampleHost
    {| doc := ["https://example.com/page " ++ pageAnchor; "a: " ++ pageAnchor];
       visibleRanges := [(90, 169)] |} = Throws "Error" /\
  exists b,
    @buildDecorations exampleHost
      {| doc := ["https://example.com/page " ++ pageAnchor; "a: " ++ pageAnchor];
         visibleRanges := [(0, 169)] |} = Done b /\
    map (fun r => (r_from r, r_to r)) (added b) = [(25, 95); (99, 169)].
Proof. split; [reflexivity |]. eexists. split; reflexivity. Qed.

(** Where the URL comes first on its line the decoration does cover the
    rest of the line. *)
Example decoration_when_url_first :
  @buildDecorations exampleHost
    {| doc := ["https://example.com/page " ++ pageAnchor];
       visibleRanges := [(0, 95)] |} =
  Done {| added :=
            [{| r_from := 25; r_to := 95;
                r_value :=
                  {| widget := {| widget_href := JString "file:///home/u/page.html" |};
                     startSide := 499999999 |} |}];
          logged := [0] |}.
Proof. reflexivity. Qed.

(** The widget of a decoration shows as a link with the href it was built
    with, and a click opens that href. *)
Lemma toDOM_link (w : LinkWidget) :
  innerText (toDOM w) = "(archived)" /\
  el_href (toDOM w) = widget_href w /\
  onclick_opens_href (toDOM w) = true.
Proof. repeat split. Qed.

Lemma findIndex_lt (A : Type) (p : A -> bool) (l : list A) :
  forall i, findIndex p l = Some i -> i < List.length l.
Proof.
  induction l as [| x r IH]; intros i; simpl; [discriminate |].
  destruct (p x); [intros [= <-]; lia |].
  destruct (findIndex p r) as [j |]; simpl; [| discriminate].
  intros [= <-]. specialize (IH j eq_refl). lia.
Qed.

(** *** When [builder.add] takes a range *)

Lemma addLayers_after {H : Host} (lasts : list AddedRange) (r : AddedRange) :
  (forall l, In l lasts -> r_to l < r_from r) ->
  exists lasts',
    addLayers lasts r = Some lasts' /\
    (forall x, In x lasts' -> x = r \/ In x lasts).
Proof.
  destruct lasts as [| l below]; intros Hlt; simpl.
  - exists [r]. split; [reflexivity |]. intros x [<- | []]. now left.
  - assert (Hl : r_to l < r_from r) by (apply Hlt; now left).
    unfold orNumber.
    destruct (Z.eqb_spec (Z.of_nat (r_from r) - Z.of_nat (r_to l)) 0); [lia |].
    destruct (Z.leb_spec (Z.of_nat (r_from r) - Z.of_nat (r_to l)) 0); [lia |].
    destruct (Z.ltb_spec (Z.of_nat (r_from r) - Z.of_nat (r_to l)) 0); [lia |].
    simpl. exists (r :: below). split; [reflexivity |].
    intros x [<- | Hx]; [now left | right; now right].
Qed.

Lemma layers_fold_in_order {H : Host} (rs : list AddedRange) :
  forall lasts,
    (forall l r, In l lasts -> In r rs -> r_to l < r_from r) ->
    inOrder rs ->
    exists lasts',
      fold_left (fun acc r => match acc with
                              | Some ls => addLayers ls r
                              | None => None
                              end) rs (Some lasts) = Some lasts' /\
      (forall x, In x lasts' -> In x lasts \/ In x rs).
Proof.
  induction rs as [| r rs IH]; intros lasts Hlt Hord; simpl.
  - exists lasts. split; [reflexivity | now left].
  - apply StronglySorted_inv in Hord. destruct Hord as [Hord Hall].
    rewrite Forall_forall in Hall.
    destruct (addLayers_after lasts r) as (l1 & -> & Hin1).
    { intros l Hl. apply (Hlt l r Hl). now left. }
    destruct (IH l1) as (l2 & -> & Hin2); [| exact Hord |].
    + intros l r' Hl Hr'. destruct (Hin1 l Hl) as [-> | Hl'].
      * now apply Hall.
      * apply (Hlt l r' Hl'). now right.
    + exists l2. split; [reflexivity |].
      intros x Hx. destruct (Hin2 x Hx) as [Hx1 | Hx2].
      * destruct (Hin1 x Hx1) as [-> | Hx']; [right; now left | now left].
      * right. now right.
Qed.

(** A builder whose ranges are in order takes a range that starts after
    all of them end. *)
Lemma builder_add_after {H : Host} (b : RangeSetBuilder) (r : AddedRange) :
  inOrder (added b) ->
  Forall (fun a => r_to a < r_from r) (added b) ->
  builder_add b r = Some {| added := (added b ++ [r])%list; logged := logged b |}.
Proof.
  intros Hord Hall. unfold builder_add, layersOf.
  destruct (@layers_fold_in_order _ (added b) []) as (lasts & -> & Hin);
    [intros l r' [] | exact Hord |].
  destruct (addLayers_after lasts r) as (lasts' & -> & _); [| reflexivity].
  intros l Hl. rewrite Forall_forall in Hall. apply Hall.
  now destruct (Hin l Hl) as [[] | Hl'].
Qed.

Lemma builder_add_added {H : Host} (b b' : RangeSetBuilder) (r : AddedRange) :
  builder_add b r = Some b' ->
  added b' = (added b ++ [r])%list /\ logged b' = logged b.
Proof.
  unfold builder_add.
  destruct (layersOf (added b)) as [lasts |]; [| discriminate].
  destruct (addLayers lasts r); [| discriminate].
  intros [= <-]. now split.
Qed.

Lemma inOrder_snoc (rs : list AddedRange) (r : AddedRange) :
  inOrder rs -> Forall (fun a => r_to a < r_from r) rs -> inOrder (rs ++ [r]).
Proof.
  unfold inOrder. induction rs as [| a rs IH]; intros Hord Hall; simpl.
  - repeat constructor.
  - apply StronglySorted_inv in Hord. destruct Hord as [Hord Ha].
    inversion Hall as [| ? ? Har Hrest]; subst.
    constructor; [now apply IH |].
    apply Forall_app. split; [exact Ha | now constructor].
Qed.

(** What the body of the loop adds for a line with a URL chunk followed by
    a marker, when the builder holds ranges in order that end before
    [pos]. *)
Lemma decorateLine_adds {H : Host} (pos : nat) (line : Line) (b : RangeSetBuilder)
  (i : nat) (h : jsval) :
  let lineChunks := split " " (line_text line) in
  let afterUrl := join " " (sliceFrom (i + 1) lineChunks) in
  inOrder (added b) ->
  Forall (fun a => r_to a < pos) (added b) ->
  findIndex parses lineChunks = Some i ->
  contains marker afterUrl && (sliceLast2 afterUrl =? "a>") = true ->
  firstElementChildHref afterUrl = Some h ->
  exists side,
    decorateLine pos line b =
    Done {| added := (added b ++
              [{| r_from := pos + String.length (nth i lineChunks "") + 1;
                  r_to := pos + String.length (nth i lineChunks "") + 1 +
                          String.length afterUrl;
                  r_value := {| widget := {| widget_href := h |};
                                startSide := side |} |}])%list;
            logged := (logged b ++ [pos])%list |}.
Proof.
  intros lineChunks afterUrl Hord Hall Hi Hm Hh. unfold decorateLine.
  fold lineChunks. rewrite Hi. fold afterUrl. rewrite Hm, Hh.
  eexists. rewrite builder_add_after; [reflexivity | exact Hord |].
  simpl. eapply Forall_impl; [| exact Hall]. simpl. intros a Ha. lia.
Qed.

(** X14: the defect behind C8 in general.  The builder holds ranges in
    order that end before the line, as it does in the loop; the line is
    scanned from its start.  When the chunk that parses is not the first one
    on the line, the decoration is added and starts before the rest of the
    line after that chunk. *)
Lemma decoration_starts_before_remainder {H : Host} (line : Line)
  (b : RangeSetBuilder) (i : nat) (h : jsval) :
  let lineChunks := split " " (line_text line) in
  let afterUrl := join " " (sliceFrom (i + 1) lineChunks) in
  inOrder (added b) ->
  Forall (fun a => r_to a < line_from line) (added b) ->
  findIndex parses lineChunks = Some i ->
  1 <= i ->
  contains marker afterUrl && (sliceLast2 afterUrl =? "a>") = true ->
  firstElementChildHref afterUrl = Some h ->
  exists b' r,
    decorateLine (line_from line) line b = Done b' /\
    added b' = (added b ++ [r])%list /\
    r_from r < remainderFrom line i.
Proof.
  intros lineChunks afterUrl Hord Hall Hi Hge Hm Hh.
  destruct (@decorateLine_adds _ (line_from line) line b _ _ Hord Hall Hi Hm Hh)
    as [side Hd].
  eexists. eexists. split; [exact Hd |]. split; [reflexivity |].
  simpl. apply startPos_before_remainder; [exact Hge |].
  now apply (findIndex_lt parses).
Qed.

(** X13: the case the builder gets right.  The builder holds ranges in
    order that end before the line, as it does in the loop; the line is
    scanned as [lineAt] gives it, from its start.  When the first chunk
    parses, the decoration is added, spans the rest of the line exactly,
    has the href read from the marker for its widget, and the ranges of
    the builder are still in order. *)
Lemma decoration_spans_remainder_for_first_chunk {H : Host} (line : Line)
  (b : RangeSetBuilder) (h : jsval) :
  let lineChunks := split " " (line_text line) in
  let afterUrl := join " " (sliceFrom 1 lineChunks) in
  inOrder (added b) ->
  Forall (fun a => r_to a < line_from line) (added b) ->
  line_to line = line_from line + String.length (line_text line) ->
  findIndex parses lineChunks = Some 0 ->
  contains marker afterUrl && (sliceLast2 afterUrl =? "a>") = true ->
  firstElementChildHref afterUrl = Some h ->
  exists b' r,
    decorateLine (line_from line) line b = Done b' /\
    added b' = (added b ++ [r])%list /\
    r_from r = remainderFrom line 0 /\
    r_to r = remainderTo line /\
    widget_href (widget (r_value r)) = h /\
    inOrder (added b').
Proof.
  intros lineChunks afterUrl Hord Hall Hto Hi Hm Hh.
  destruct (@decorateLine_adds _ (line_from line) line b _ _ Hord Hall Hi Hm Hh)
    as [side Hd].
  eexists. eexists. split; [exact Hd |]. split; [reflexivity |]. simpl.
  subst afterUrl lineChunks.
  destruct (split " " (line_text line)) as [| x [| y r]] eqn:Es.
  - discriminate Hi.
  - simpl in Hm. discriminate Hm.
  - destruct (startPos_is_remainder_for_first_chunk line Hto Es) as [H1 H2].
    repeat split; try assumption.
    apply inOrder_snoc; [exact Hord |].
    eapply Forall_impl; [| exact Hall]. simpl. intros a Ha. lia.
Qed.

(** * Further properties of the code *)

(** ** The output file name and the arguments *)

Lemma contains_char_cons (c b : ascii) (s : string) :
  contains (String c "") (String b s) = Ascii.eqb c b || contains (String c "") s.
Proof.
  simpl. destruct s; simpl; now rewrite andb_true_r.
Qed.

Lemma contains_char_nil (c : ascii) : contains (String c "") "" = false.
Proof. reflexivity. Qed.

Lemma contains_char_append (c : ascii) (a b : string) :
  contains (String c "") (a ++ b) =
  contains (String c "") a || contains (String c "") b.
Proof.
  induction a as [| x a IH].
  - reflexivity.
  - change (String x a ++ b) with (String x (a ++ b)).
    rewrite !contains_char_cons, IH. now rewrite orb_assoc.
Qed.

(** No piece that [split] gives holds the separator. *)
Lemma split_pieces_without_separator (sep : ascii) (s : string) :
  Forall (fun x => contains (String sep "") x = false) (split sep s).
Proof.
  induction s as [| c s IH]; simpl.
  - repeat constructor.
  - destruct (Ascii.eqb c sep) eqn:E.
    + constructor; [reflexivity | exact IH].
    + destruct (split sep s) as [| w ws] eqn:Es;
        [now destruct (split_not_nil _ _ Es) |].
      inversion IH as [| ? ? Hw Hws]; subst.
      constructor; [| exact Hws].
      rewrite contains_char_cons, Hw, Ascii.eqb_sym, E. reflexivity.
Qed.

Lemma pop_value_from_array (a : list string) :
  fst (pop a) = JUndefined \/ exists x, fst (pop a) = JString x /\ In x a.
Proof.
  destruct (list_last_cases a) as [-> | (front & x & ->)].
  - now left.
  - right. exists x. rewrite pop_app_last. split; [reflexivity |].
    apply in_or_app. right. now left.
Qed.

Lemma pop_rest_incl (a : list string) (x : string) :
  In x (snd (pop a)) -> In x a.
Proof.
  destruct (list_last_cases a) as [-> | (front & y & ->)].
  - simpl. tauto.
  - rewrite pop_app_last. simpl. intros Hin. apply in_or_app. now left.
Qed.

Lemma popOrPop_value_from_array (a : list string) :
  fst (popOrPop a) = JUndefined \/
  exists x, fst (popOrPop a) = JString x /\ In x a.
Proof.
  unfold popOrPop. destruct (pop a) as [v1 a1] eqn:E.
  destruct (truthy v1).
  - replace v1 with (fst (pop a)) by now rewrite E.
    apply pop_value_from_array.
  - destruct (pop_value_from_array a1) as [Hu | (x & Hx & Hin)]; [now left |].
    right. exists x. split; [exact Hx |].
    apply pop_rest_incl. now rewrite E.
Qed.

(** X1: the output file name of every URL has no [/] in it, so the
    [-o] argument names a file directly in the working directory
    [monolith] is started in. *)
Theorem outputFile_has_no_slash (url : URL) :
  contains "/" (outputFile url) = false.
Proof.
  unfold outputFile. rewrite contains_char_append.
  apply orb_false_iff. split; [| reflexivity].
  destruct (popOrPop_value_from_array (split "/" (pathname url)))
    as [-> | (x & -> & Hin)]; [reflexivity |].
  pose proof (split_pieces_without_separator "/" (pathname url)) as Hall.
  rewrite Forall_forall in Hall. now apply Hall.
Qed.

Lemma split_append_separator (sep : ascii) (s : string) :
  split sep (s ++ String sep "") = (split sep s ++ [""])%list.
Proof.
  induction s as [| c s IH]; simpl.
  - now rewrite Ascii.eqb_refl.
  - destruct (Ascii.eqb c sep); [now rewrite IH |].
    rewrite IH. destruct (split sep s) as [| w ws] eqn:E;
      [now destruct (split_not_nil _ _ E) | reflexivity].
Qed.

(** X2: a slash at the end of the path does not change the name: when the
    last segment of a pathname is not empty, the URL with that pathname and
    the URL with one more [/] after it get the same output file, the last
    segment and [.html]. *)
Theorem outputFile_ignores_one_trailing_slash (h1 h2 p seg : string)
  (front : list string) :
  split "/" p = (front ++ [seg])%list ->
  seg <> "" ->
  outputFile {| href := h1; pathname := p |} = seg ++ ".html" /\
  outputFile {| href := h2; pathname := p ++ "/" |} = seg ++ ".html".
Proof.
  intros Hs Hne. apply String.eqb_neq in Hne.
  unfold outputFile, popOrPop. simpl pathname.
  rewrite split_append_separator, Hs, !pop_app_last.
  cbn [truthy]. rewrite Hne. change ("" =? "") with true. cbn [negb].
  now split.
Qed.

Lemma outputFile_ignores_one_trailing_slash_witness :
  split "/" "/a/page" = ([""; "a"] ++ ["page"])%list /\
  "page" <> "" /\
  outputFile {| href := "https://example.com/a/page"; pathname := "/a/page" |} =
    "page.html" /\
  outputFile {| href := "https://example.com/a/page/"; pathname := "/a/page" ++ "/" |} =
    "page.html".
Proof.
  split; [reflexivity | split; [discriminate |]].
  apply (@outputFile_ignores_one_trailing_slash
           "https://example.com/a/page" "https://example.com/a/page/"
           "/a/page" "page" [""; "a"]).
  - reflexivity.
  - discriminate.
Defined.

(** X3: whatever the settings, the arguments [monolith] gets end with
    [-o<outputFile>] and the URL, in that order; before them come either all
    the configured flags or none. *)
Theorem spawnArgs_end_with_output_and_url (s : MonolithPluginSettings) (url : URL) :
  exists flags : list string,
    spawnArgs s url =
      (flags ++ [("-o" ++ outputFile url)%string; URL_toString url])%list /\
    (flags = cliOpts s \/ flags = []).
Proof.
  unfold spawnArgs. destruct (firstIsNotEmpty (cliOpts s)).
  - exists (cliOpts s). split; [reflexivity | now left].
  - exists []. split; [reflexivity | now right].
Qed.

(** ** The flags *)

(** X4: the Flags text is kept as typed: after the flags are changed to
    [value], showing the settings tab again fills the Flags field with
    [value] itself (the list saved is [value] split at blanks, and the
    field shows the list joined with blanks). *)
Theorem flags_field_shows_what_was_typed {H : Host} (value : string) (w : World) :
  containerEl (exec (onChangeFlags value ;;; display) w) =
  [Heading "Monolith plugin settings" None;
   SettingItem "Flags" "Used when invoking Monolith." "monolith --help" value;
   SettingItem "Output folder" "Where archived pages will be saved." "$HOME"
     (outputPath (settings w))].
Proof.
  unfold onChangeFlags, display, saveSettings, empty, createEl. run.
  now rewrite (join_split " " value).
Qed.

Lemma split_first_of_cons (sep c : ascii) (rest : string) :
  c <> sep ->
  exists w ws, split sep (String c rest) = String c w :: ws.
Proof.
  intros Hne. simpl. apply Ascii.eqb_neq in Hne. rewrite Hne.
  destruct (split sep rest) as [| w ws] eqn:E;
    [now destruct (split_not_nil _ _ E) |].
  now exists w, ws.
Qed.

(** X5: how the Flags text reaches [monolith].  When the text is empty or
    begins with a blank, the first flag is the empty string and the next
    archive passes no flag at all, only [-o<outputFile>] and the URL; when
    it begins with another character, every piece of the text between
    blanks is passed, empty pieces included, before those two.  Both
    revisions. *)
Theorem flags_text_to_arguments {H : Host} (value : string) (view : ViewId)
  (url : URL) (range : Range) (w : World) :
  let w1 := exec (onChangeFlags value) w in
  let spawnWith := fun a =>
    {| command := "monolith"; args := a; cwd := outputPath (settings w) |} in
  (value = "" \/ startsWith " " value = true ->
   spawnsExactly (MainTs.archiveLink view url range) w1 (spawnWith (baseArgs url)) /\
   spawnsExactly (Part000.archiveLink view url range) w1 (spawnWith (baseArgs url))) /\
  (forall (c : ascii) (rest : string),
     value = String c rest -> c <> " "%char ->
     let a := (split " " value ++ baseArgs url)%list in
     spawnsExactly (MainTs.archiveLink view url range) w1 (spawnWith a) /\
     spawnsExactly (Part000.archiveLink view url range) w1 (spawnWith a)).
Proof.
  intros w1 spawnWith.
  assert (Hs : settings w1 = {| cliOpts := split " " value;
                                 outputPath := outputPath (settings w) |})
    by reflexivity.
  pose proof (archiveLink_spawnsExactly view url range w1) as Hsp.
  cbv zeta in Hsp. rewrite Hs in Hsp. simpl outputPath in Hsp.
  split.
  - intros Hblank.
    assert (Ha : spawnArgs {| cliOpts := split " " value;
                              outputPath := outputPath (settings w) |} url =
                 baseArgs url).
    { apply spawnArgs_first_empty. simpl cliOpts.
      destruct Hblank as [-> | Hb]; [reflexivity |].
      destruct value as [| c rest]; [reflexivity |].
      cbn [startsWith] in Hb. apply andb_prop in Hb. destruct Hb as [Hc _].
      apply Ascii.eqb_eq in Hc. subst c. reflexivity. }
    rewrite Ha in Hsp. exact Hsp.
  - intros c rest Hv Hc a.
    assert (Ha : spawnArgs {| cliOpts := split " " value;
                              outputPath := outputPath (settings w) |} url = a).
    { destruct (split_first_of_cons rest Hc) as (x & xs & Hx).
      subst a. rewrite Hv.
      apply (@spawnArgs_first_not_empty
               {| cliOpts := split " " (String c rest);
                  outputPath := outputPath (settings w) |} url (String c x)).
      - cbn [cliOpts]. now rewrite Hx.
      - discriminate. }
    rewrite Ha in Hsp. exact Hsp.
Qed.

Lemma flags_text_to_arguments_witness :
  startsWith " " " --no-js" = true /\
  spawnsExactly
    (@MainTs.archiveLink exampleHost 0 pageURL (@Build_Range exampleHost 4 28))
    (exec (@onChangeFlags exampleHost " --no-js") exampleWorld)
    {| command := "monolith";
       args := ["-opage.html"; "https://example.com/page"];
       cwd := "/home/u" |}.
Proof.
  split; [reflexivity |].
  apply (proj1 (@flags_text_to_arguments exampleHost " --no-js" 0 pageURL
                  (@Build_Range exampleHost 4 28) exampleWorld)).
  right. reflexivity.
Defined.

(** ** The command, checking and running *)

(** X6: a call of the check with [checking] true changes nothing at all
    (no process, no notice, no edit) and gives the answer that the call
    with [checking] false gives from the same state.  Both revisions. *)
Theorem checking_changes_nothing_and_agrees {H : Host} (w : World) :
  MainTs.checkCallback true w = (fst (MainTs.checkCallback false w), w) /\
  Part000.checkCallback true w = (fst (Part000.checkCallback false w), w).
Proof.
  rewrite !MainTs_checkCallback_eq, !Part000_checkCallback_eq.
  destruct (activeView w) as [v |]; [| now split].
  now destruct (newURL (getSelection (editors w v))).
Qed.

Lemma spawnsExactly_changes_processes {H : Host} (A : Type) (m : M A) (w : World)
  (sp : Spawn) :
  spawnsExactly m w sp -> processes (exec m w) <> processes w.
Proof.
  unfold spawnsExactly. intros Hs Heq. rewrite Heq in Hs.
  apply (f_equal (@List.length Spawn)) in Hs.
  rewrite length_app in Hs. simpl in Hs. lia.
Qed.

(** X7: in [main.ts] answer and action agree: the command run with
    [checking] false answers [true] exactly when that run spawned a
    process (one process, [monolith]); when it answers [undefined] the
    world is as it was. *)
Theorem MainTs_run_answers_true_iff_spawned {H : Host} (w : World) :
  (fst (MainTs.checkCallback false w) = Some true <->
   exists sp, command sp = "monolith" /\
              spawnsExactly (MainTs.checkCallback false) w sp) /\
  (fst (MainTs.checkCallback false w) <> Some true ->
   MainTs.checkCallback false w = (None, w)).
Proof.
  split; [split |].
  - intros Ht.
    apply (proj1 (MainTs_checkCallback_runnable_iff false w)) in Ht.
    destruct Ht as (v & u & Hv & Hu).
    exists {| command := "monolith"; args := spawnArgs (settings w) u;
              cwd := outputPath (settings w) |}.
    split; [reflexivity |].
    unfold spawnsExactly, exec. rewrite MainTs_checkCallback_eq, Hv, Hu. simpl.
    apply archiveLink_spawnsExactly.
  - intros (sp & _ & Hsp).
    apply spawnsExactly_changes_processes in Hsp.
    apply (proj2 (MainTs_checkCallback_runnable_iff false w)) in Hsp.
    now apply (proj1 (MainTs_checkCallback_runnable_iff false w)).
  - rewrite MainTs_checkCallback_eq.
    destruct (activeView w) as [v |]; [| reflexivity].
    destruct (newURL (getSelection (editors w v))); [| reflexivity].
    simpl. intros Hne. now destruct Hne.
Qed.

(** ** Settings changed while [monolith] runs *)

Lemma onChangeOutput_accepted_world {H : Host} (value : string) (w : World) :
  let w' := exec (onChangeOutput value (Stats true)) w in
  settings w' = {| cliOpts := cliOpts (settings w); outputPath := value |} /\
  editors w' = editors w /\ notices w' = notices w /\
  processes w' = processes w.
Proof.
  unfold onChangeOutput, onChangeOutput_stat, onChangeOutput_saved. run.
  destruct (querySelector "outErr" (containerEl w)); repeat split.
Qed.

(** X8: the link is built from the output path of the moment the process
    closes, not of the moment it was started.  If the output folder is
    changed to [value] (and accepted) between [archiveLink] and a close
    with code 0, [monolith] was started in the old folder and the link
    written points into [value].  Both revisions. *)
Theorem link_points_to_output_path_at_close {H : Host} (view : ViewId) (url : URL)
  (range : Range) (value : string) (w : World) :
  let c := closureOf view url range in
  let started := {| command := "monolith"; args := spawnArgs (settings w) url;
                    cwd := outputPath (settings w) |} in
  (let w1 := exec (MainTs.archiveLink view url range) w in
   let w2 := exec (onChangeOutput value (Stats true)) w1 in
   let w3 := exec (MainTs.onClose c (Some 0%Z)) w2 in
   spawnsExactly (MainTs.archiveLink view url range) w started /\
   spliced c (URL_toString url ++ " " ++
              MainTs.anchorString value (outputFile url)) w1 w3) /\
  (let w1 := exec (Part000.archiveLink view url range) w in
   let w2 := exec (onChangeOutput value (Stats true)) w1 in
   let w3 := exec (Part000.onClose c (Some 0%Z)) w2 in
   spawnsExactly (Part000.archiveLink view url range) w started /\
   spliced c (URL_toString url ++ " " ++
              Part000.linkString value (outputFile url)) w1 w3).
Proof.
  intros c started. split.
  - intros w1 w2 w3.
    split; [apply archiveLink_spawnsExactly |].
    destruct (onChangeOutput_accepted_world value w1) as (Hs & He & _).
    fold w2 in Hs, He.
    destruct (MainTs_onClose_zero c w2) as [_ Hsp]. fold w3 in Hsp.
    rewrite Hs in Hsp. simpl outputPath in Hsp.
    unfold spliced in *. now rewrite <- He.
  - intros w1 w2 w3.
    split; [apply archiveLink_spawnsExactly |].
    destruct (onChangeOutput_accepted_world value w1) as (Hs & He & _).
    fold w2 in Hs, He.
    destruct (Part000_onClose_zero c w2) as [_ Hsp]. fold w3 in Hsp.
    rewrite Hs in Hsp. simpl outputPath in Hsp.
    unfold spliced in *. now rewrite <- He.
Qed.

(** ** The error heading of the output folder *)

Lemma querySelector_Some_count (c : string) (els : list PaneElement)
  (el : PaneElement) :
  querySelector c els = Some el -> 1 <= countClass c els.
Proof.
  unfold querySelector, countClass.
  induction els as [| x els IH]; simpl; [discriminate |].
  destruct (hasClass c x); simpl; [lia |]. exact IH.
Qed.

Lemma removeFirst_count (c : string) (els : list PaneElement) (el : PaneElement) :
  querySelector c els = Some el ->
  countClass c (removeFirst c els) = countClass c els - 1.
Proof.
  unfold querySelector, countClass.
  induction els as [| x els IH]; simpl; [discriminate |].
  destruct (hasClass c x) eqn:E; simpl; [lia |].
  rewrite E. exact IH.
Qed.

(** X9: what the pane shows once the output-folder handler has run to its
    end, in a pane with at most one error heading.  If [stat] threw, exactly
    one error heading is there (entering bad paths again and again does not
    pile them up) and nothing is saved; if the value is a directory, no
    error heading is left; if it exists and is no directory, the handler
    does nothing at all: the value is not saved and no error is shown. *)
Theorem output_folder_error_heading {H : Host} (value : string) (w : World) :
  countClass "outErr" (containerEl w) <= 1 ->
  (let w' := exec (onChangeOutput value StatThrows) w in
   countClass "outErr" (containerEl w') = 1 /\
   settings w' = settings w /\ data w' = data w) /\
  countClass "outErr" (containerEl (exec (onChangeOutput value (Stats true)) w)) = 0 /\
  exec (onChangeOutput value (Stats false)) w = w.
Proof.
  intros Hc. split; [| split].
  - unfold onChangeOutput, onChangeOutput_stat. run.
    destruct (querySelector "outErr" (containerEl w)) as [el |] eqn:Q; simpl.
    + pose proof (querySelector_Some_count _ _ Q). repeat split. lia.
    + repeat split. rewrite countClass_app, (querySelector_None_count _ _ Q).
      reflexivity.
  - unfold onChangeOutput, onChangeOutput_stat, onChangeOutput_saved. run.
    destruct (querySelector "outErr" (containerEl w)) as [el |] eqn:Q; simpl.
    + rewrite (removeFirst_count _ _ Q). lia.
    + now apply querySelector_None_count.
  - reflexivity.
Qed.

Lemma output_folder_error_heading_witness :
  countClass "outErr" (containerEl exampleWorld) <= 1 /\
  countClass "outErr"
    (containerEl (exec (@onChangeOutput exampleHost "/tmp" (Stats true))
                    exampleWorld)) = 0.
Proof.
  split; [unfold countClass; simpl; lia |].
  apply (proj1 (proj2 (@output_folder_error_heading exampleHost "/tmp" exampleWorld
                         ltac:(unfold countClass; simpl; lia)))).
Defined.

(** X10: handlers of the output folder can overtake one another, since each
    waits for its save before it removes the error heading.  When a
    directory [good] is accepted, then a later entry [bad] fails its
    [stat], and only then the save of the first settles, the heading shown
    for [bad] is removed: the pane shows no error although the last value
    entered was refused, and the output path is [good]. *)
Theorem late_save_removes_newer_error {H : Host} (good bad : string) (w : World) :
  countClass "outErr" (containerEl w) <= 1 ->
  let w' := exec (tabRun [OutputStat good (Stats true);
                          OutputStat bad StatThrows;
                          OutputSaved]) w in
  countClass "outErr" (containerEl w') = 0 /\
  outputPath (settings w') = good /\
  data w' = Some (toObject (settings w')).
Proof.
  intros Hc. unfold tabRun, tabStep, onChangeOutput_stat, onChangeOutput_saved,
    saveSettings, createEl. run.
  destruct (querySelector "outErr" (containerEl w)) as [el |] eqn:Q; simpl.
  - rewrite Q. simpl. repeat split.
    rewrite (removeFirst_count _ _ Q).
    pose proof (querySelector_Some_count _ _ Q). lia.
  - assert (Q' : querySelector "outErr" (containerEl w ++ [outErr]) = Some outErr).
    { unfold querySelector in *. clear Hc.
      induction (containerEl w) as [| x els IH]; simpl in *; [reflexivity |].
      destruct (hasClass "outErr" x); [discriminate | now apply IH]. }
    rewrite Q'. simpl. repeat split.
    rewrite (removeFirst_count _ _ Q'), countClass_app,
      (querySelector_None_count _ _ Q).
    reflexivity.
Qed.

Lemma late_save_removes_newer_error_witness :
  countClass "outErr" (containerEl exampleWorld) <= 1 /\
  countClass "outErr"
    (containerEl (exec (@tabRun exampleHost
                          [OutputStat "/tmp" (Stats true);
                           OutputStat "/nowhere" StatThrows;
                           OutputSaved]) exampleWorld)) = 0.
Proof.
  split; [unfold countClass; simpl; lia |].
  apply (proj1 (@late_save_removes_newer_error exampleHost "/tmp" "/nowhere"
                  exampleWorld ltac:(unfold countClass; simpl; lia))).
Defined.

(** ** Settings across a restart *)

Lemma inSync_of_saved {H : Host} (w : World) :
  data w = Some (toObject (settings w)) -> inSync w.
Proof.
  intros Hd. unfold inSync. rewrite loadSettings_settings, Hd. simpl.
  now destruct (settings w).
Qed.

Lemma inSync_same_data_settings {H : Host} (w w' : World) :
  data w' = data w -> settings w' = settings w -> inSync w -> inSync w'.
Proof.
  unfold inSync. rewrite !loadSettings_settings. now intros -> ->.
Qed.

Lemma tabStep_inSync {H : Host} (e : TabEvent) (w : World) :
  inSync w -> inSync (exec (tabStep e) w).
Proof.
  intros Hw. destruct e as [| value | value [| []] |]; cbn [tabStep].
  - apply (inSync_same_data_settings (w := w)); [reflexivity .. | exact Hw].
  - apply inSync_of_saved. reflexivity.
  - apply (inSync_same_data_settings (w := w)); [| | exact Hw];
      unfold onChangeOutput_stat; run;
      now destruct (querySelector "outErr" (containerEl w)).
  - apply inSync_of_saved. reflexivity.
  - apply (inSync_same_data_settings (w := w)); [reflexivity .. | exact Hw].
  - apply (inSync_same_data_settings (w := w)); [| | exact Hw];
      unfold onChangeOutput_saved; run;
      now destruct (querySelector "outErr" (containerEl w)).
Qed.

Lemma tabRun_inSync {H : Host} (es : list TabEvent) :
  forall w, inSync w -> inSync (exec (tabRun es) w).
Proof.
  induction es as [| e es IH]; intros w Hw; simpl; [exact Hw |].
  rewrite exec_seq. apply IH. now apply tabStep_inSync.
Qed.

(** X11: nothing done in the settings tab is lost by a restart.  After the
    settings were loaded and any events of the tab took place, in any order
    (flags edited, folders accepted or refused, saves settling), loading the
    settings again gives exactly the settings in use. *)
Theorem settings_survive_reload {H : Host} (es : list TabEvent) (w : World) :
  let w' := exec (loadSettings ;;; tabRun es) w in
  settings (exec loadSettings w') = settings w'.
Proof.
  intros w'. subst w'. rewrite exec_seq.
  apply (tabRun_inSync es).
  unfold inSync. rewrite !loadSettings_settings.
  assert (Hd : data (exec loadSettings w) = data w).
  { unfold loadSettings, exec, bind, loadData, gets. simpl.
    now rewrite asSettings_loadedObject. }
  now rewrite Hd.
Qed.

(** ** More on the decorations *)

(** X12: the scanning loop of [buildDecorations] always ends: each turn
    moves [pos] past the end of the line it looked at, so for every view the
    builder is finished or an exception is thrown, within [to - from + 1]
    turns per visible range. *)
Theorem buildDecorations_ends {H : Host} (view : EditorView) :
  (exists b, buildDecorations view = Done b) \/
  (exists err, buildDecorations view = Throws err).
Proof.
  pose proof (buildDecorations_total view) as Ht.
  destruct (buildDecorations view) as [b | err |].
  - left. now exists b.
  - right. now exists err.
  - now destruct Ht.
Qed.

Lemma decoration_spans_remainder_for_first_chunk_witness :
  let line := {| line_from := 0; line_to := 95;
                 line_text := "https://example.com/page " ++ pageAnchor |} in
  exists b' r,
    @decorateLine exampleHost (line_from line) line newBuilder = Done b' /\
    added b' = (added newBuilder ++ [r])%list /\
    r_from r = remainderFrom line 0 /\
    r_to r = remainderTo line /\
    widget_href (widget (r_value r)) = JString "file:///home/u/page.html" /\
    inOrder (added b').
Proof.
  apply (@decoration_spans_remainder_for_first_chunk exampleHost
           {| line_from := 0; line_to := 95;
              line_text := "https://example.com/page " ++ pageAnchor |}
           newBuilder (JString "file:///home/u/page.html"));
    [constructor | constructor | reflexivity ..].
Defined.

Lemma decoration_starts_before_remainder_witness :
  let line := {| line_from := 0; line_to := 99; line_text := archivedLine |} in
  exists b' r,
    @decorateLine exampleHost (line_from line) line newBuilder = Done b' /\
    added b' = (added newBuilder ++ [r])%list /\
    r_from r < remainderFrom line 1.
Proof.
  apply (@decoration_starts_before_remainder exampleHost
           {| line_from := 0; line_to := 99; line_text := archivedLine |}
           newBuilder 1 (JString "file:///home/u/page.html"));
    [constructor | constructor | reflexivity | lia | reflexivity | reflexivity].
Defined.

(** *** Order of the ranges *)

Lemma lineAtFrom_from_ge (lines : Text) :
  forall start pos line,
    lineAtFrom lines start pos = Some line -> start <= line_from line.
Proof.
  induction lines as [| l rest IH]; intros start pos line; simpl; [discriminate |].
  destruct (Nat.leb_spec pos (start + String.length l)).
  - intros [= <-]. simpl. lia.
  - intros Hl. apply IH in Hl. lia.
Qed.

Lemma lineAtFrom_next (lines : Text) :
  forall start pos line line',
    lineAtFrom lines start pos = Some line ->
    lineAtFrom lines start (line_to line + 1) = Some line' ->
    line_from line' = line_to line + 1.
Proof.
  induction lines as [| l rest IH]; intros start pos line line'; simpl;
    [discriminate |].
  destruct (Nat.leb_spec pos (start + String.length l)).
  - intros [= <-]. simpl.
    destruct (Nat.leb_spec (start + String.length l + 1) (start + String.length l));
      [lia |].
    destruct rest as [| l' rest']; simpl; [discriminate |].
    destruct (Nat.leb_spec (start + String.length l + 1)
                (start + String.length l + 1 + String.length l')); [| lia].
    now intros [= <-].
  - intros Hl Hl'.
    pose proof (lineAtFrom_from_ge _ _ _ Hl) as Hge.
    destruct (lineAtFrom_span _ _ _ Hl) as [_ Hto].
    destruct (Nat.leb_spec (line_to line + 1) (start + String.length l)); [lia |].
    now apply (IH _ _ _ _ Hl Hl').
Qed.

Lemma lineAt_next_atLineStart (d : Text) (pos : nat) (line : Line) :
  lineAt d pos = Some line -> atLineStart d (line_to line + 1).
Proof.
  intros Hl. unfold atLineStart.
  destruct (lineAt d (line_to line + 1)) as [line' |] eqn:E; [| exact I].
  now apply (lineAtFrom_next _ _ _ Hl E).
Qed.

Lemma join_length_at (l : list string) :
  forall i y r,
    i < List.length l -> skipn (i + 1) l = y :: r ->
    String.length (nth i l "") + 1 + String.length (join " " (y :: r))
    <= String.length (join " " l).
Proof.
  induction l as [| x rest IH]; intros i y r Hi Hs; simpl in Hi; [lia |].
  destruct i as [| k].
  - simpl in Hs. subst rest.
    rewrite join_cons_cons, !length_append.
    change (String.length " ") with 1. simpl nth. lia.
  - change (skipn (S k + 1) (x :: rest)) with (skipn (k + 1) rest) in Hs.
    change (nth (S k) (x :: rest) "") with (nth k rest "").
    assert (Hk : k < List.length rest) by lia.
    specialize (IH k y r Hk Hs).
    destruct rest as [| z rest']; [simpl in Hk; lia |].
    rewrite (join_cons_cons " " x z rest'), !length_append.
    change (String.length " ") with 1. lia.
Qed.

(** What one turn of the loop can add when it looks at a line from its
    start: nothing, or one range that lies within the line. *)
Lemma decorateLine_within_line {H : Host} (line : Line) (b b' : RangeSetBuilder) :
  line_to line = line_from line + String.length (line_text line) ->
  decorateLine (line_from line) line b = Done b' ->
  logged b' = (logged b ++ [line_from line])%list /\
  (added b' = added b \/
   exists r, added b' = (added b ++ [r])%list /\
             line_from line <= r_from r /\ r_from r <= r_to r /\
             r_to r <= line_to line).
Proof.
  intros Hto. unfold decorateLine.
  destruct (findIndex parses (split " " (line_text line))) as [i |] eqn:Ei;
    [| intros [= <-]; split; [reflexivity | now left]].
  destruct (contains marker (join " " (sliceFrom (i + 1) (split " " (line_text line))))
            && (sliceLast2 (join " " (sliceFrom (i + 1) (split " " (line_text line))))
                =? "a>")) eqn:Em;
    [| intros [= <-]; split; [reflexivity | now left]].
  destruct (firstElementChildHref
              (join " " (sliceFrom (i + 1) (split " " (line_text line)))))
    as [h |]; [| discriminate].
  match goal with |- context [builder_add ?x ?r] =>
    destruct (builder_add x r) as [b1 |] eqn:Eb end; [| discriminate].
  apply builder_add_added in Eb. destruct Eb as [Eadd Elog].
  intros [= <-]. split; [exact Elog |]. right. eexists. split; [exact Eadd |].
  simpl. unfold sliceFrom in *.
  destruct (skipn (i + 1) (split " " (line_text line))) as [| y r] eqn:Es.
  - simpl in Em. discriminate Em.
  - pose proof (@join_length_at _ _ _ _ (findIndex_lt _ _ Ei) Es) as Hlen.
    rewrite (join_split " " (line_text line)) in Hlen. lia.
Qed.

Lemma scanRange_in_order {H : Host} (d : Text) (upto : nat) :
  forall fuel pos b b',
    atLineStart d pos ->
    scanRange fuel d pos upto b = Done b' ->
    exists news,
      added b' = (added b ++ news)%list /\
      Forall (fun r => pos <= r_from r /\ r_from r <= r_to r) news /\
      inOrder news /\
      List.length news + List.length (logged b) <= List.length (logged b').
Proof.
  induction fuel as [| fuel IH]; intros pos b b' Hstart; simpl.
  - destruct (Nat.ltb_spec upto pos); [| discriminate].
    intros [= <-]. exists []. rewrite app_nil_r.
    repeat split; [constructor | constructor | simpl; lia].
  - destruct (Nat.ltb_spec upto pos).
    { intros [= <-]. exists []. rewrite app_nil_r.
      repeat split; [constructor | constructor | simpl; lia]. }
    unfold atLineStart in Hstart.
    destruct (lineAt d pos) as [line |] eqn:El; [| discriminate].
    destruct (lineAtFrom_span _ _ _ El) as [_ Hto].
    subst pos.
    destruct (decorateLine (line_from line) line b) as [b1 | err |] eqn:Ed;
      [| discriminate | discriminate].
    intros Hscan.
    destruct (decorateLine_within_line line b Hto Ed) as [Hlog Hadd].
    destruct (IH _ _ _ (lineAt_next_atLineStart _ _ El) Hscan)
      as (news & Hn & Hall & Hord & Hcount).
    rewrite Hlog, length_app in Hcount. simpl in Hcount.
    destruct Hadd as [Hsame | (r & Hr & H1 & H2 & H3)].
    + exists news. rewrite Hn, Hsame. repeat split.
      * eapply Forall_impl; [| exact Hall]. simpl. intros a [Ha1 Ha2]. lia.
      * exact Hord.
      * lia.
    + exists (r :: news). rewrite Hn, Hr, <- app_assoc. repeat split.
      * constructor; [lia |].
        eapply Forall_impl; [| exact Hall]. simpl. intros a [Ha1 Ha2]. lia.
      * constructor; [exact Hord |].
        eapply Forall_impl; [| exact Hall]. simpl. intros a [Ha1 Ha2]. lia.
      * simpl. lia.
Qed.

(** X15: for a view with one visible range that begins where a line
    begins, the ranges [buildDecorations] adds come in the order the builder
    asks for: each ends before the next starts, no range is empty-backwards
    or starts before the visible range, and there is at most one range per
    line looked at. *)
Theorem buildDecorations_ranges_in_order {H : Host} (d : Text) (lo hi : nat)
  (b : RangeSetBuilder) :
  atLineStart d lo ->
  buildDecorations {| doc := d; visibleRanges := [(lo, hi)] |} = Done b ->
  inOrder (added b) /\
  Forall (fun r => lo <= r_from r /\ r_from r <= r_to r) (added b) /\
  List.length (added b) <= List.length (logged b).
Proof.
  intros Hstart. unfold buildDecorations. cbn [doc visibleRanges scanRanges].
  destruct (scanRange (S hi - lo) d lo hi newBuilder) as [b1 | err |] eqn:E;
    [| discriminate | discriminate].
  intros [= <-].
  destruct (@scanRange_in_order _ _ _ _ _ _ _ Hstart E) as (news & Hn & Hall & Hord & Hc).
  simpl in Hn, Hc. rewrite Hn. repeat split; [exact Hord | exact Hall | lia].
Qed.

Lemma buildDecorations_ranges_in_order_witness :
  atLineStart ["https://example.com/page " ++ pageAnchor; "x"; archivedLine] 0 /\
  exists b,
    @buildDecorations exampleHost
      {| doc := ["https://example.com/page " ++ pageAnchor; "x"; archivedLine];
         visibleRanges := [(0, 197)] |} = Done b /\
    inOrder (added b) /\
    List.length (added b) = 2.
Proof.
  split; [reflexivity |].
  eexists. split; [reflexivity |]. split; [| reflexivity].
  apply (@buildDecorations_ranges_in_order exampleHost
           ["https://example.com/page " ++ pageAnchor; "x"; archivedLine] 0 197).
  - reflexivity.
  - reflexivity.
Defined.

(** *** A marker with no element in it *)

(** X16: the check for a marker is on the text only.  When the first line
    looked at has a chunk that parses as a URL and the rest of the line
    holds the class text and ends in [a>] and yet has no element in it,
    reading the [href] throws: [buildDecorations] ends with a [TypeError],
    so the plugin cannot be constructed on that view and decorates
    nothing. *)
Theorem marker_without_element_throws {H : Host} (d : Text) (lo hi : nat)
  (rest : list (nat * nat)) (line : Line) (i : nat) :
  let lineChunks := split " " (line_text line) in
  let afterUrl := join " " (sliceFrom (i + 1) lineChunks) in
  lo <= hi ->
  lineAt d lo = Some line ->
  findIndex parses lineChunks = Some i ->
  contains marker afterUrl && (sliceLast2 afterUrl =? "a>") = true ->
  firstElementChildHref afterUrl = None ->
  buildDecorations {| doc := d; visibleRanges := (lo, hi) :: rest |} =
    Throws "TypeError" /\
  construct {| doc := d; visibleRanges := (lo, hi) :: rest |} =
    Throws "TypeError".
Proof.
  intros lineChunks afterUrl Hle Hl Hi Hm Hh.
  assert (Hb : buildDecorations {| doc := d; visibleRanges := (lo, hi) :: rest |} =
               Throws "TypeError").
  { unfold buildDecorations. cbn [doc visibleRanges scanRanges].
    replace (S hi - lo) with (S (hi - lo)) by lia.
    cbn [scanRange].
    destruct (Nat.ltb_spec hi lo); [lia |].
    rewrite Hl. unfold decorateLine.
    fold lineChunks. rewrite Hi. fold afterUrl. rewrite Hm, Hh. reflexivity. }
  split; [exact Hb |]. unfold construct. now rewrite Hb.
Qed.

Lemma marker_without_element_throws_witness :
  0 <= 26 /\
  @buildDecorations exampleHost
    {| doc := [brokenMarkerLine]; visibleRanges := [(0, 26)] |} =
  Throws "TypeError".
Proof.
  split; [lia |].
  apply (@marker_without_element_throws exampleHost [brokenMarkerLine] 0 26 []
           {| line_from := 0; line_to := 26; line_text := brokenMarkerLine |} 0);
    [lia | reflexivity | reflexivity | reflexivity | reflexivity].
Defined.

(** *** Updates of the view plugin *)

Lemma updates_without_change_keep_none {H : Host} (us : list ViewUpdate) :
  Forall (fun u => docChanged u = false /\ viewportChanged u = false) us ->
  updates [] us = Done [].
Proof.
  induction us as [| u us IH]; intros Hall; [reflexivity |].
  inversion Hall as [| ? ? [Hd Hv] Hrest]; subst.
  cbn [updates]. unfold update. rewrite Hd, Hv.
  destruct (editorLivePreviewField u); simpl; now apply IH.
Qed.

(** X17: an update outside live preview drops every decoration, and they
    do not come back by themselves: through any further updates in which
    neither the document nor the viewport changed, live preview or not,
    the plugin holds no decoration.  (Going to source mode and back leaves
    the archive markers undecorated until the text or the viewport
    changes.) *)
Theorem decorations_stay_dropped_until_a_change {H : Host}
  (decorations : DecorationSet) (u : ViewUpdate) (us : list ViewUpdate) :
  editorLivePreviewField u = false ->
  Forall (fun u' => docChanged u' = false /\ viewportChanged u' = false) us ->
  updates decorations (u :: us) = Done [].
Proof.
  intros Hlive Hall. cbn [updates]. unfold update. rewrite Hlive. simpl.
  now apply updates_without_change_keep_none.
Qed.

Lemma decorations_stay_dropped_until_a_change_witness :
  exists d0,
    @construct exampleHost archivedView = Done d0 /\
    d0 <> [] /\
    @updates exampleHost d0
      [{| editorLivePreviewField := false; docChanged := false;
          viewportChanged := false; update_view := archivedView |};
       {| editorLivePreviewField := true; docChanged := false;
          viewportChanged := false; update_view := archivedView |}] = Done [].
Proof.
  eexists. split; [reflexivity |]. split; [discriminate |].
  apply (@decorations_stay_dropped_until_a_change exampleHost).
  - reflexivity.
  - repeat constructor.
Defined.

(** ** What the output of [monolith] can do *)

Lemma data_event_only_logs {H : Host} (c : Closure) (e : ProcessEvent) (w : World) :
  (forall code, e <> Close code) ->
  let w1 := exec (MainTs.handle c e) w in
  let w2 := exec (Part000.handle c e) w in
  (editors w1 = editors w /\ notices w1 = notices w /\
   settings w1 = settings w /\ processes w1 = processes w) /\
  (editors w2 = editors w /\ notices w2 = notices w /\
   settings w2 = settings w /\ processes w2 = processes w).
Proof.
  intros Hnc. destruct e as [chunk | chunk | code]; simpl; [repeat split .. |].
  now destruct (Hnc code).
Qed.

(** X19: what [monolith] writes never reaches the note or the user: as
    long as the process has not closed, chunks on its standard output and
    standard error, however many and in whatever order, leave the editors,
    the notices, the settings and the processes as they were (they are only
    logged).  Both revisions. *)
Theorem process_output_only_logged {H : Host} (c : Closure) (es : list ProcessEvent) :
  Forall (fun e => forall code, e <> Close code) es ->
  forall w : World,
    (let w' := exec (deliver (MainTs.handle c) es) w in
     editors w' = editors w /\ notices w' = notices w /\
     settings w' = settings w /\ processes w' = processes w) /\
    (let w' := exec (deliver (Part000.handle c) es) w in
     editors w' = editors w /\ notices w' = notices w /\
     settings w' = settings w /\ processes w' = processes w).
Proof.
  induction es as [| e es IH]; intros Hall w; [repeat split |].
  inversion Hall as [| ? ? He Hrest]; subst.
  cbn [deliver]. rewrite !exec_seq.
  destruct (data_event_only_logs c w He) as [(E1 & N1 & S1 & P1) (E2 & N2 & S2 & P2)].
  split.
  - destruct (proj1 (IH Hrest (exec (MainTs.handle c e) w))) as (E & N & S & P).
    rewrite E, N, S, P. now repeat split.
  - destruct (proj2 (IH Hrest (exec (Part000.handle c e) w))) as (E & N & S & P).
    rewrite E, N, S, P. now repeat split.
Qed.

Lemma process_output_only_logged_witness :
  Forall (fun e => forall code, e <> Close code)
    [StdoutData "saving"; StderrData "warning"] /\
  notices (exec (deliver (MainTs.handle exampleClosure)
                   [StdoutData "saving"; StderrData "warning"]) exampleWorld) =
  notices exampleWorld.
Proof.
  assert (Hall : Forall (fun e => forall code, e <> Close code)
                   [StdoutData "saving"; StderrData "warning"])
    by (repeat constructor; discriminate).
  split; [exact Hall |].
  apply (proj1 (@process_output_only_logged exampleHost exampleClosure
                  [StdoutData "saving"; StderrData "warning"] Hall exampleWorld)).
Defined.

(** ** The builder's order of ranges is respected from a line start *)

Lemma decorateLine_throws_only_TypeError {H : Host} (line : Line)
  (b : RangeSetBuilder) (err : string) :
  inOrder (added b) ->
  Forall (fun a => r_to a < line_from line) (added b) ->
  decorateLine (line_from line) line b = Throws err ->
  err = "TypeError".
Proof.
  intros Hord Hall. unfold decorateLine.
  destruct (findIndex parses (split " " (line_text line))) as [i |];
    [| discriminate].
  match goal with |- context [if ?c then _ else _] => destruct c end;
    [| discriminate].
  match goal with |- context [firstElementChildHref ?a] =>
    destruct (firstElementChildHref a) end; [| now intros [= <-]].
  rewrite builder_add_after; [discriminate | exact Hord |].
  simpl. eapply Forall_impl; [| exact Hall]. simpl. intros a Ha. lia.
Qed.

Lemma scanRange_no_order_error {H : Host} (d : Text) (upto : nat) :
  forall fuel pos b,
    atLineStart d pos ->
    inOrder (added b) ->
    Forall (fun a => r_to a < pos) (added b) ->
    scanRange fuel d pos upto b <> Throws "Error".
Proof.
  induction fuel as [| fuel IH]; intros pos b Hstart Hord Hall; simpl.
  - destruct (Nat.ltb_spec upto pos); discriminate.
  - destruct (Nat.ltb_spec upto pos); [discriminate |].
    unfold atLineStart in Hstart.
    destruct (lineAt d pos) as [line |] eqn:El; [| discriminate].
    destruct (lineAtFrom_span _ _ _ El) as [_ Hto].
    subst pos.
    destruct (decorateLine (line_from line) line b) as [b1 | err |] eqn:Ed.
    + destruct (decorateLine_within_line line b Hto Ed) as [_ Hadd].
      apply IH; [now apply (lineAt_next_atLineStart _ _ El) | |].
      * destruct Hadd as [-> | (r & -> & H1 & H2 & H3)]; [exact Hord |].
        apply inOrder_snoc; [exact Hord |].
        eapply Forall_impl; [| exact Hall]. simpl. intros a Ha. lia.
      * destruct Hadd as [-> | (r & -> & H1 & H2 & H3)].
        -- eapply Forall_impl; [| exact Hall]. simpl. intros a Ha. lia.
        -- apply Forall_app. split.
           ++ eapply Forall_impl; [| exact Hall]. simpl. intros a Ha. lia.
           ++ constructor; [lia | constructor].
    + rewrite (decorateLine_throws_only_TypeError line b Hord Hall Ed).
      discriminate.
    + discriminate.
Qed.

(** X21: for a view with one visible range that begins where a line
    begins, [builder.add] never throws: every range lies within its own
    line, after the ranges of the lines before, so [buildDecorations] does
    not end with the builder's order error. *)
Theorem buildDecorations_no_order_error {H : Host} (d : Text) (lo hi : nat) :
  atLineStart d lo ->
  buildDecorations {| doc := d; visibleRanges := [(lo, hi)] |} <> Throws "Error".
Proof.
  intros Hstart. unfold buildDecorations. cbn [doc visibleRanges scanRanges].
  destruct (scanRange (S hi - lo) d lo hi newBuilder) as [b1 | err |] eqn:E;
    [discriminate | | discriminate].
  intros [= ->]. revert E.
  apply scanRange_no_order_error; [exact Hstart | constructor | constructor].
Qed.

Lemma buildDecorations_no_order_error_witness :
  atLineStart ["https://example.com/page " ++ pageAnchor; "a: " ++ pageAnchor] 0 /\
  @buildDecorations exampleHost
    {| doc := ["https://example.com/page " ++ pageAnchor; "a: " ++ pageAnchor];
       visibleRanges := [(0, 169)] |} <> Throws "Error".
Proof.
  split; [reflexivity |].
  apply (@buildDecorations_no_order_error exampleHost
           ["https://example.com/page " ++ pageAnchor; "a: " ++ pageAnchor] 0 169).
  reflexivity.
Defined.
